(** * polyb: the call orchestrator and the CRM connector

    A shallow embedding of [call_orchestrator.py] and [crm_connector.py]:
    the payload flattener [parse_json], the call gate [start_call] with
    [make_call], and the CRM workflow [push_to_crm] / [get_contact] with
    [create_contact], [create_lead] and [EspoAPI.request].

    The two external HTTP services, the clock and the loggers are the only
    effects of the code; they are modelled by a deterministic [world] that
    answers every request (as a function of the exchanges made so far) and
    by a state that records the exchanges and the log lines in order. *)

From Stdlib Require Import List String Ascii ZArith Lia Bool Arith PeanoNat.
From Stdlib Require Import DecimalString.
Import ListNotations.
Open Scope string_scope.

Set Warnings "-register-all".

(** ** Python values

    JSON payloads after decoding.  Leaves are the values for which both
    [isinstance(data, dict)] and [isinstance(data, list)] are false.  JSON
    numbers are kept as integers: the code only tests numbers for
    truthiness and for equality with [0]. *)

Inductive scalar : Type :=
| SNone
| SBool (b : bool)
| SNum (z : Z)
| SStr (s : string).

Inductive json : Type :=
| JScalar (v : scalar)
| JList (items : list json)
| JDict (entries : list (string * json)).

Definition JStr (s : string) : json := JScalar (SStr s).
Definition JNum (z : Z) : json := JScalar (SNum z).
Definition JNone : json := JScalar SNone.

(** ** Python dictionaries

    A [dict] keeps its entries in insertion order; assigning to a key that
    is already there replaces the value in place, assigning to a new key
    appends an entry. *)

Module Dict.

Definition t (V : Type) : Type := list (string * V).

Definition keys {V} (d : t V) : list string := map fst d.

Fixpoint get {V} (k : string) (d : t V) : option V :=
  match d with
  | [] => None
  | (k', v) :: d' => if String.eqb k k' then Some v else get k d'
  end.

Fixpoint set {V} (k : string) (v : V) (d : t V) : t V :=
  match d with
  | [] => [(k, v)]
  | (k', v') :: d' =>
      if String.eqb k k' then (k', v) :: d' else (k', v') :: set k v d'
  end.

(** [d.get(k, dflt)] *)
Definition get_default {V} (k : string) (dflt : V) (d : t V) : V :=
  match get k d with Some v => v | None => dflt end.

(** The representation invariant of a Python dictionary. *)
Definition wf {V} (d : t V) : Prop := NoDup (keys d).

End Dict.

(** ** Rendering of values inside f-strings *)

Definition str_of_nat (n : nat) : string :=
  NilEmpty.string_of_uint (Nat.to_uint n).

Definition str_of_Z (z : Z) : string :=
  NilEmpty.string_of_int (Z.to_int z).

(** * call_orchestrator.py *)

(** ** [parse_json]

    [result] is the dictionary that the recursive calls share and mutate;
    it is threaded through the traversal. *)

Definition dict_key (parent_key key : string) : string :=
  if String.eqb parent_key "" then key else parent_key ++ "." ++ key.

Definition list_key (parent_key : string) (index : nat) : string :=
  parent_key ++ "[" ++ str_of_nat index ++ "]".

Fixpoint parse_json_acc (data : json) (parent_key : string)
    (result : Dict.t scalar) {struct data} : Dict.t scalar :=
  match data with
  | JDict entries =>
      (fix items (es : list (string * json)) (result : Dict.t scalar)
         : Dict.t scalar :=
         match es with
         | [] => result
         | (key, value) :: es' =>
             items es' (parse_json_acc value (dict_key parent_key key) result)
         end) entries result
  | JList l =>
      (fix enumerate (l : list json) (index : nat) (result : Dict.t scalar)
         : Dict.t scalar :=
         match l with
         | [] => result
         | item :: l' =>
             enumerate l' (S index)
               (parse_json_acc item (list_key parent_key index) result)
         end) l 0%nat result
  | JScalar v => Dict.set parent_key v result
  end.

(** [parse_json(data)] with the defaults [parent_key=''] and
    [result=None]. *)
Definition parse_json (data : json) : Dict.t scalar :=
  parse_json_acc data "" [].

(** A flat mapping seen as a JSON object. *)
Definition flat (d : Dict.t scalar) : json :=
  JDict (map (fun kv => (fst kv, JScalar (snd kv))) d).

(** ** Truthiness and the [or] operator on leaves *)

Definition truthy (v : scalar) : bool :=
  match v with
  | SNone => false
  | SBool b => b
  | SNum z => negb (Z.eqb z 0)
  | SStr s => negb (String.eqb s "")
  end.

Definition py_or (a b : scalar) : scalar := if truthy a then a else b.

(** [d.get(k)] on a flattened event: [None] when the key is absent. *)
Definition get_or_none (k : string) (d : Dict.t scalar) : scalar :=
  Dict.get_default k SNone d.

Definition type_name (j : json) : string :=
  match j with
  | JScalar SNone => "NoneType"
  | JScalar (SBool _) => "bool"
  | JScalar (SNum _) => "int"
  | JScalar (SStr _) => "str"
  | JList _ => "list"
  | JDict _ => "dict"
  end.

(** * The outside world *)

Inductive http_method : Type := GET | POST | PATCH | PUT | DELETE.

(** How the parameters travel: [data=json.dumps(j)], [json=j], or
    [url + "?" + http_build_query(j)] (the URL encoding of the query is
    not modelled, the request keeps the parameters). *)
Inductive payload : Type :=
| Data (j : json)
| Json (j : json)
| Query (j : json).

Record request : Type := Request {
  req_method : http_method;
  req_url : string;
  req_headers : list (string * string);
  req_payload : payload
}.

(** The content of a response: empty, not decodable as JSON (with the
    text of the decoding error), or a JSON document. *)
Inductive body : Type :=
| BodyEmpty
| BodyRaw (decode_error : string)
| BodyJson (j : json).

Record response : Type := Response {
  status_code : Z;
  reason : string;
  x_status_reason : option string;
  content : body
}.

(** What [requests] does with a request: it raises (no connection, time
    out, ...) or it returns a response. *)
Inductive reply : Type :=
| NoReply (error : string)
| Reply (r : response).

Record datetime : Type := DateTime {
  year : nat; month : nat; day : nat;
  hour : nat; minute : nat; second : nat; microsecond : nat
}.

Abbreviation exchange := (request * reply)%type.

Record world : Type := World {
  http : list exchange -> request -> reply;
  now : nat -> datetime
}.

(** ** Exceptions

    [RequestException] stands for the classes of [requests.exceptions]
    ([ConnectionError], [HTTPError], [JSONDecodeError], ...). *)
Inductive exn_class : Type :=
| RequestException
| EspoAPIError
| AttributeError
| TypeError
| KeyError
| IndexError.

Record exn : Type := Exn { exn_kind : exn_class; exn_str : string }.

Definition is_request_exception (e : exn) : bool :=
  match exn_kind e with RequestException => true | _ => false end.

(** ** Log lines, one constructor per logging call of the two files *)

Inductive level : Type := INFO | WARNING | ERROR | STDOUT.

Inductive message : Type :=
| MsgKeyValue (key : string) (value : scalar)
| MsgNotEnoughData
| MsgCallFields (lead_id created_by_id number_id : scalar)
| MsgStatusError (e : exn)
| MsgCurrentStatus (current_status : json)
| MsgCallActive
| MsgRequestError (e : exn)
| MsgSending (m : http_method) (target : request) (params : json)
| MsgRequestFailed (code : Z) (why : string)
| MsgEmptyResponse
| MsgLeadCreated (data : json)
| MsgLeadFailed (e : exn)
| MsgContactCreated (data : json)
| MsgContactFailed (e : exn)
| MsgFetchError (e : exn)
| MsgFound (total : json) (phone_number : json)
| MsgPushing (first_name last_name phone : json)
| MsgPushResult (result : json)
| MsgPushError (e : exn).

Abbreviation log_entry := (level * message)%type.

(** ** The monad of the two services *)

Record state : Type := State {
  exchanges : list exchange;
  log : list log_entry;
  clock_reads : nat
}.

Definition initial : state := State [] [] 0.

Inductive outcome (A : Type) : Type :=
| Returned (a : A)
| Raised (e : exn).
Arguments Returned {A} a.
Arguments Raised {A} e.

Definition M (A : Type) : Type := world -> state -> outcome A * state.

Definition ret {A} (a : A) : M A := fun _ st => (Returned a, st).

Definition bind {A B} (m : M A) (k : A -> M B) : M B :=
  fun w st =>
    match m w st with
    | (Returned a, st') => k a w st'
    | (Raised e, st') => (Raised e, st')
    end.

Definition raise {A} (e : exn) : M A := fun _ st => (Raised e, st).

(** [try: m  except <classes accepted by catches> as e: handler e] *)
Definition try_except {A} (m : M A) (catches : exn -> bool)
    (handler : exn -> M A) : M A :=
  fun w st =>
    match m w st with
    | (Returned a, st') => (Returned a, st')
    | (Raised e, st') =>
        if catches e then handler e w st' else (Raised e, st')
    end.

Definition any_exception (_ : exn) : bool := true.

Declare Scope py_scope.
Delimit Scope py_scope with py.
Notation "x <- m ;; k" := (bind m (fun x => k))
  (at level 100, m at next level, right associativity) : py_scope.
Notation "m ;; k" := (bind m (fun _ => k))
  (at level 100, right associativity) : py_scope.
Open Scope py_scope.

Definition emit (l : level) (m : message) : M unit :=
  fun _ st =>
    (Returned tt,
     State (exchanges st) (log st ++ [(l, m)]) (clock_reads st)).

(** [requests.request(...)] / [requests.post(...)]: one exchange with the
    world, recorded whatever the answer. *)
Definition send (rq : request) : M response :=
  fun w st =>
    let rp := http w (exchanges st) rq in
    let st' := State (exchanges st ++ [(rq, rp)]) (log st) (clock_reads st) in
    match rp with
    | NoReply error => (Raised (Exn RequestException error), st')
    | Reply r => (Returned r, st')
    end.

(** [datetime.datetime.now()] *)
Definition datetime_now : M datetime :=
  fun w st =>
    (Returned (now w (clock_reads st)),
     State (exchanges st) (log st) (S (clock_reads st))).

(** [response.json()] *)
Definition response_json (r : response) : M json :=
  match content r with
  | BodyJson j => ret j
  | BodyRaw decode_error => raise (Exn RequestException decode_error)
  | BodyEmpty =>
      raise (Exn RequestException "Expecting value: line 1 column 1 (char 0)")
  end.

(** [response.raise_for_status()] *)
Definition raise_for_status (url : string) (r : response) : M unit :=
  let c := status_code r in
  if ((400 <=? c) && (c <? 500))%Z then
    raise (Exn RequestException
             (str_of_Z c ++ " Client Error: " ++ reason r
              ++ " for url: " ++ url))
  else if ((500 <=? c) && (c <? 600))%Z then
    raise (Exn RequestException
             (str_of_Z c ++ " Server Error: " ++ reason r
              ++ " for url: " ++ url))
  else ret tt.

(** [obj.get(key, dflt)]: only dictionaries have the method. *)
Definition method_get (obj : json) (key : string) (dflt : json) : M json :=
  match obj with
  | JDict d => ret (Dict.get_default key dflt d)
  | _ =>
      raise (Exn AttributeError
               ("'" ++ type_name obj ++ "' object has no attribute 'get'"))
  end.

(** ** [make_call] *)

Definition telephony_url : string := "http://192.168.1.105:8801/call".

Definition json_headers : list (string * string) :=
  [("Content-Type", "application/json")].

(** [s[-k:]] on a string *)
Definition last_chars (k : nat) (s : string) : string :=
  substring (String.length s - k) k s.

(** [number[-9:]]: only strings can be sliced among the leaves. *)
Definition slice_last9 (number : scalar) : M string :=
  match number with
  | SStr s => ret (last_chars 9 s)
  | _ =>
      raise (Exn TypeError
               ("'" ++ type_name (JScalar number)
                ++ "' object is not subscriptable"))
  end.

Definition call_request (number : string) : request :=
  Request POST telephony_url json_headers
    (Data (JDict [("action", JStr "call"); ("number", JStr number)])).

Definition make_call (number : scalar) : M json :=
  number <- slice_last9 number ;;
  try_except
    (response <- send (call_request number) ;;
     raise_for_status telephony_url response ;;
     response_json response)
    is_request_exception
    (fun e => emit STDOUT (MsgRequestError e) ;; ret JNone).

(** ** [start_call] *)

Definition py_and (a b : scalar) : scalar := if truthy a then b else a.

(** The two paths probed for a required field: the lead-shaped one, then
    the contact-shaped one. *)
Definition aliases : Type := (string * string)%type.

Definition lead_id_keys : aliases :=
  ("crm_result.lead.lead.id", "crm_result.contact.id").

Definition number_id_keys : aliases :=
  ("crm_result.lead.lead.phoneNumber", "crm_result.contact.phoneNumber").

Definition created_by_id_keys : aliases :=
  ("crm_result.lead.lead.createdById", "crm_result.contact.createdById").

(** [parsed_data.get(lead_key) or parsed_data.get(contact_key)] *)
Definition resolve (keys : aliases) (parsed_data : Dict.t scalar) : scalar :=
  py_or (get_or_none (fst keys) parsed_data)
        (get_or_none (snd keys) parsed_data).

Definition status_request : request :=
  Request POST telephony_url json_headers
    (Data (JDict [("action", JStr "get_status")])).

(** The body of the [try] of the status query. *)
Definition status_try : M json :=
  response <- send status_request ;; response_json response.

(** The [try]/[except Exception] around the status query. *)
Definition query_status : M json :=
  try_except status_try any_exception
    (fun e =>
       emit ERROR (MsgStatusError e) ;;
       ret (JDict [("status", JStr "idle")])).

(** The status that the gate observes: [current_status]. *)
Definition observe_status : M json :=
  status_response <- query_status ;;
  current_status <- method_get status_response "status" (JStr "idle") ;;
  emit INFO (MsgCurrentStatus current_status) ;;
  ret current_status.

(** [current_status in ["idle"]] *)
Definition is_idle (current_status : json) : bool :=
  match current_status with
  | JScalar (SStr s) => String.eqb s "idle"
  | _ => false
  end.

Fixpoint log_items (items : Dict.t scalar) : M unit :=
  match items with
  | [] => ret tt
  | (key, value) :: items' =>
      emit INFO (MsgKeyValue key value) ;; log_items items'
  end.

(** The flattened event of an invocation:
    [parse_json(params.get('result', {}))]. *)
Definition parsed_data_of (params : Dict.t json) : Dict.t scalar :=
  parse_json (Dict.get_default "result" (JDict []) params).

Definition start_call (params : Dict.t json) : M unit :=
  let parsed_data := parsed_data_of params in
  log_items parsed_data ;;
  let lead_id := resolve lead_id_keys parsed_data in
  let number_id := resolve number_id_keys parsed_data in
  let created_by_id := resolve created_by_id_keys parsed_data in
  if negb (truthy (py_and (py_and lead_id number_id) created_by_id)) then
    emit WARNING MsgNotEnoughData
  else
    emit INFO (MsgCallFields lead_id created_by_id number_id) ;;
    current_status <- observe_status ;;
    if is_idle current_status then
      make_call number_id ;; ret tt
    else
      emit INFO MsgCallActive.

(** * crm_connector.py *)

(** ** [strftime('%Y%m%d%H%M%S')]

    Every field is zero-padded to its width (four digits for the year,
    two for the others). *)

Definition digit (n : nat) : string :=
  String (ascii_of_nat (48 + n mod 10)) "".

Definition two_digits (n : nat) : string :=
  digit (n / 10) ++ digit n.

Definition four_digits (n : nat) : string :=
  two_digits (n / 100) ++ two_digits (n mod 100).

Definition strftime (t : datetime) : string :=
  four_digits (year t) ++ two_digits (month t) ++ two_digits (day t)
  ++ two_digits (hour t) ++ two_digits (minute t) ++ two_digits (second t).

(** The values [datetime.datetime] can hold. *)
Definition valid_datetime (t : datetime) : Prop :=
  (1 <= year t < 100 * 100 /\ 1 <= month t <= 12 /\ 1 <= day t <= 31
   /\ hour t < 24 /\ minute t < 60 /\ second t < 60
   /\ microsecond t < 1000 * 1000)%nat.

(** Two readings of the clock within the same second. *)
Definition same_second (t1 t2 : datetime) : Prop :=
  year t1 = year t2 /\ month t1 = month t2 /\ day t1 = day t2
  /\ hour t1 = hour t2 /\ minute t1 = minute t2 /\ second t1 = second t2.

(** ** [EspoAPI] *)

Record EspoAPI : Type := { api_url : string; api_key : string }.

Definition url_path : string := "/api/v1/".

Definition normalize_url (self : EspoAPI) (action : string) : string :=
  api_url self ++ url_path ++ action.

Definition parse_reason (r : response) : string :=
  match x_status_reason r with
  | Some why => why
  | None => "Unknown Error"
  end.

(** [method.upper() in ["POST", "PATCH", "PUT"]] *)
Definition sends_json (m : http_method) : bool :=
  match m with
  | POST | PATCH | PUT => true
  | GET | DELETE => false
  end.

Definition api_request_of (self : EspoAPI) (m : http_method)
    (action : string) (params : json) : request :=
  Request m (normalize_url self action) [("X-Api-Key", api_key self)]
    (if sends_json m then Json params else Query params).

(** [EspoAPI.request].  The attribute [self.status_code] that it sets is
    read nowhere else and is left out. *)
Definition api_request (self : EspoAPI) (m : http_method) (action : string)
    (params : json) : M response :=
  emit INFO (MsgSending m (api_request_of self m action params) params) ;;
  response <- send (api_request_of self m action params) ;;
  if negb (status_code response =? 200)%Z then
    let why := parse_reason response in
    emit ERROR (MsgRequestFailed (status_code response) why) ;;
    raise (Exn EspoAPIError
             ("Wrong request, status code " ++ str_of_Z (status_code response)
              ++ ", reason: " ++ why))
  else
    match content response with
    | BodyEmpty =>
        emit ERROR MsgEmptyResponse ;;
        raise (Exn EspoAPIError "Empty response content")
    | _ => ret response
    end.

(** ** Subscripts and comparisons used by the workflow *)

(** [obj[key]] with a string key *)
Definition item (obj : json) (key : string) : M json :=
  match obj with
  | JDict d =>
      match Dict.get key d with
      | Some v => ret v
      | None => raise (Exn KeyError ("'" ++ key ++ "'"))
      end
  | JList _ =>
      raise (Exn TypeError "list indices must be integers or slices, not str")
  | JScalar (SStr _) =>
      raise (Exn TypeError "string indices must be integers, not 'str'")
  | JScalar _ =>
      raise (Exn TypeError
               ("'" ++ type_name obj ++ "' object is not subscriptable"))
  end.

(** [obj[0]] *)
Definition first_item (obj : json) : M json :=
  match obj with
  | JList (x :: _) => ret x
  | JList [] => raise (Exn IndexError "list index out of range")
  | JDict _ => raise (Exn KeyError "0")
  | JScalar (SStr (String c _)) => ret (JStr (String c ""))
  | JScalar (SStr EmptyString) =>
      raise (Exn IndexError "string index out of range")
  | JScalar _ =>
      raise (Exn TypeError
               ("'" ++ type_name obj ++ "' object is not subscriptable"))
  end.

(** [x == 0] (in Python [False == 0] holds as well) *)
Definition eq_zero (x : json) : bool :=
  match x with
  | JScalar (SNum z) => (z =? 0)%Z
  | JScalar (SBool b) => negb b
  | _ => false
  end.

(** [x == s] for a string literal [s] *)
Definition eq_str (x : json) (s : string) : bool :=
  match x with
  | JScalar (SStr s') => String.eqb s' s
  | _ => false
  end.

(** ** [EspoCrmClient]

    [str_container] is Python's [str] on lists and dictionaries, which is
    not reproduced here; [py_str] is [str] as f-strings apply it. *)

Section Client.

Variable str_container : json -> string.

Definition py_str (x : json) : string :=
  match x with
  | JScalar SNone => "None"
  | JScalar (SBool true) => "True"
  | JScalar (SBool false) => "False"
  | JScalar (SNum z) => str_of_Z z
  | JScalar (SStr s) => s
  | _ => str_container x
  end.

Variable client : EspoAPI.

Definition error_result (e : exn) : json :=
  JDict [("status", JStr "error"); ("message", JStr (exn_str e))].

(** The value assigned to [payload['name']]. *)
Definition lead_name (payload : Dict.t json) (t : datetime) : string :=
  match Dict.get "name" payload with
  | Some name => py_str name
  | None => "Lead"
  end ++ " - " ++ strftime t.

(** [create_lead] assigns the name in the dictionary it is given; its
    callers hand it a fresh literal, so the assignment is seen by the
    request only. *)
Definition create_lead (payload : Dict.t json) : M json :=
  t <- datetime_now ;;
  let payload := Dict.set "name" (JStr (lead_name payload t)) payload in
  try_except
    (response <- api_request client POST "Lead" (JDict payload) ;;
     data <- response_json response ;;
     emit INFO (MsgLeadCreated data) ;;
     ret (JDict [("status", JStr "success"); ("lead", data)]))
    any_exception
    (fun e => emit ERROR (MsgLeadFailed e) ;; ret (error_result e)).

Definition contact_payload (first_name last_name phone_number : json)
  : Dict.t json :=
  [("name", JStr (py_str first_name ++ " " ++ py_str last_name));
   ("firstName", first_name);
   ("lastName", last_name);
   ("phoneNumber", phone_number)].

Definition create_contact (first_name last_name phone_number : json)
  : M json :=
  let payload := contact_payload first_name last_name phone_number in
  try_except
    (response <- api_request client POST "Contact" (JDict payload) ;;
     data <- response_json response ;;
     emit INFO (MsgContactCreated data) ;;
     ret (JDict [("status", JStr "success"); ("contact", data)]))
    any_exception
    (fun e => emit ERROR (MsgContactFailed e) ;; ret (error_result e)).

Definition contact_query (phone_number : json) : Dict.t json :=
  [("where[0][type]", JStr "equals");
   ("where[0][attribute]", JStr "phoneNumber");
   ("where[0][value]", phone_number)].

Definition lead_payload (lead_name last_name phone_number : json)
  : Dict.t json :=
  [("firstName", lead_name);
   ("lastName", last_name);
   ("phoneNumber", phone_number)].

(** The part of [get_contact] after the query has answered. *)
Definition upsert (data lead_name last_name phone_number : json) : M json :=
  total <- method_get data "total" (JNum 0) ;;
  emit INFO (MsgFound total phone_number) ;;
  if eq_zero total then
    contact_result <- create_contact lead_name last_name phone_number ;;
    status <- item contact_result "status" ;;
    if negb (eq_str status "success") then ret contact_result
    else
      lead_result <- create_lead (lead_payload lead_name last_name phone_number) ;;
      ret (JDict [("status", JStr "created");
                  ("contact", contact_result);
                  ("lead", lead_result)])
  else
    found <- item data "list" ;;
    contact <- first_item found ;;
    lead_result <- create_lead (lead_payload lead_name last_name phone_number) ;;
    ret (JDict [("status", JStr "success");
                ("contact", contact);
                ("lead", lead_result)]).

(** [get_contact]: the outcome of the first [try] is either the decoded
    answer or the error result that is returned at once. *)
Definition get_contact (lead_name last_name phone_number : json) : M json :=
  fetched <-
    try_except
      (response <- api_request client GET "Contact"
                     (JDict (contact_query phone_number)) ;;
       data <- response_json response ;;
       ret (inl data))
      any_exception
      (fun e => emit ERROR (MsgFetchError e) ;; ret (inr (error_result e))) ;;
  match fetched with
  | inr error => ret error
  | inl data => upsert data lead_name last_name phone_number
  end.

End Client.

Definition default_client : EspoAPI :=
  {| api_url := "http://192.168.1.100:8080";
     api_key := "2b295072ff26b1aa69a2968863592941" |}.

(** ** [push_to_crm] *)

Definition get_or_null (k : string) (params : Dict.t json) : json :=
  Dict.get_default k JNone params.

Definition push_to_crm (str_container : json -> string)
    (params : Dict.t json) : M json :=
  let first_name := get_or_null "firstName" params in
  let last_name := get_or_null "lastName" params in
  let phone := get_or_null "phoneNumber" params in
  emit INFO (MsgPushing first_name last_name phone) ;;
  try_except
    (result <- get_contact str_container default_client
                 first_name last_name phone ;;
     emit INFO (MsgPushResult result) ;;
     ret (JDict [("status", JStr "pushed"); ("crm_result", result)]))
    any_exception
    (fun e => emit ERROR (MsgPushError e) ;; ret (error_result e)).

(** * Observations on a run *)

(** The exchanges made between two states of a run. *)
Definition issued (before after : state) : list exchange :=
  skipn (List.length (exchanges before)) (exchanges after).

(** The number carried by a call-placement request. *)
Definition placed_number (x : exchange) : option json :=
  match req_payload (fst x) with
  | Data (JDict d) =>
      if String.eqb (req_url (fst x)) telephony_url
         && eq_str (Dict.get_default "action" JNone d) "call"
      then Some (Dict.get_default "number" JNone d)
      else None
  | _ => None
  end.

Fixpoint placements (xs : list exchange) : list json :=
  match xs with
  | [] => []
  | x :: xs' =>
      match placed_number x with
      | Some n => n :: placements xs'
      | None => placements xs'
      end
  end.

(** Requests that reach the telephony endpoint. *)
Definition to_telephony (xs : list exchange) : list exchange :=
  filter (fun x => String.eqb (req_url (fst x)) telephony_url) xs.

Definition add_log (st : state) (entries : list log_entry) : state :=
  State (exchanges st) (log st ++ entries) (clock_reads st).

Definition add_exchange (st : state) (x : exchange) : state :=
  State (exchanges st ++ [x]) (log st) (clock_reads st).

Definition items_log (items : Dict.t scalar) : list log_entry :=
  map (fun kv => (INFO, MsgKeyValue (fst kv) (snd kv))) items.

(** The three required fields of an event, and what it means for one of
    them to be absent from, or present in, a flattened event. *)
Definition required : list aliases :=
  [lead_id_keys; number_id_keys; created_by_id_keys].

Definition absent (keys : aliases) (parsed_data : Dict.t scalar) : Prop :=
  Dict.get (fst keys) parsed_data = None
  /\ Dict.get (snd keys) parsed_data = None.

Definition present (keys : aliases) (parsed_data : Dict.t scalar) : Prop :=
  Dict.get (fst keys) parsed_data <> None
  \/ Dict.get (snd keys) parsed_data <> None.

(** The state in which the gate gives up. *)
Definition gave_up (params : Dict.t json) (st : state) : state :=
  add_log st (items_log (parsed_data_of params)
              ++ [(WARNING, MsgNotEnoughData)]).

(** The state in which the gate queries the telephony endpoint. *)
Definition fields_logged (params : Dict.t json) (st : state) : state :=
  let parsed_data := parsed_data_of params in
  add_log st (items_log parsed_data
              ++ [(INFO, MsgCallFields (resolve lead_id_keys parsed_data)
                           (resolve created_by_id_keys parsed_data)
                           (resolve number_id_keys parsed_data))]).

(** What is left of [start_call] once the three fields are there. *)
Definition gate (number_id : scalar) : M unit :=
  current_status <- observe_status ;;
  if is_idle current_status then
    make_call number_id ;; ret tt
  else
    emit INFO MsgCallActive.

(** ** Concrete events and telephony endpoints *)

Definition noon : datetime := DateTime 2024 5 17 12 0 0 0.

Definition ok_json (j : json) : reply :=
  Reply (Response 200 "OK" None (BodyJson j)).

Definition telephony_idle : world :=
  World (fun _ _ => ok_json (JDict [("status", JStr "idle")])) (fun _ => noon).

Definition telephony_down : world :=
  World (fun _ _ => NoReply "Connection refused") (fun _ => noon).

Definition lead_event (fields : Dict.t json) : Dict.t json :=
  [("result",
    JDict [("status", JStr "pushed");
           ("crm_result",
            JDict [("status", JStr "created");
                   ("lead", JDict [("status", JStr "success");
                                   ("lead", JDict fields)])])])].

Definition event_string_phone : Dict.t json :=
  lead_event [("id", JStr "L1"); ("phoneNumber", JStr "+380501234567");
              ("createdById", JStr "U1")].

Definition event_numeric_phone : Dict.t json :=
  lead_event [("id", JStr "L1"); ("phoneNumber", JNum 380501234567);
              ("createdById", JStr "U1")].

Definition event_no_creator : Dict.t json :=
  lead_event [("id", JStr "L1"); ("phoneNumber", JStr "+380501234567")].

(** A telephony endpoint that answers the status query with an error
    status and a JSON body. *)
Definition telephony_error_body : world :=
  World
    (fun _ _ =>
       Reply (Response 500 "Internal Server Error" None
                (BodyJson (JDict [("status", JStr "error")]))))
    (fun _ => noon).

(** An event whose lead-shaped id is [0] and whose contact-shaped fields
    are all there. *)
Definition event_fallback : Dict.t json :=
  [("result",
    JDict [("crm_result",
            JDict [("lead", JDict [("lead", JDict [("id", JNum 0)])]);
                   ("contact",
                    JDict [("id", JStr "C1");
                           ("phoneNumber", JStr "+380501234567");
                           ("createdById", JStr "U1")])])])].

Definition event_empty_phone : Dict.t json :=
  lead_event [("id", JStr "L1"); ("phoneNumber", JStr "");
              ("createdById", JStr "U1")].

(** ** Observations on the CRM exchanges *)

(** The document a sub-step gets out of the reply to its request: the
    reply has status 200 and a body that decodes. *)
Definition answer_of (rp : reply) : option json :=
  match rp with
  | NoReply _ => None
  | Reply r =>
      if (status_code r =? 200)%Z then
        match content r with
        | BodyJson j => Some j
        | _ => None
        end
      else None
  end.

(** A sub-step fails at the HTTP level: no reply, a status other than
    200, or an empty body. *)
Definition http_failure (rp : reply) : Prop :=
  match rp with
  | NoReply _ => True
  | Reply r => status_code r <> 200%Z \/ content r = BodyEmpty
  end.

Definition method_eqb (a b : http_method) : bool :=
  match a, b with
  | GET, GET | POST, POST | PATCH, PATCH | PUT, PUT | DELETE, DELETE => true
  | _, _ => false
  end.

Definition is_create (action : string) (x : exchange) : bool :=
  method_eqb (req_method (fst x)) POST
  && String.eqb (req_url (fst x)) (normalize_url default_client action).

Definition contact_creates (xs : list exchange) : nat :=
  List.length (filter (is_create "Contact") xs).

Definition lead_creates (xs : list exchange) : nat :=
  List.length (filter (is_create "Lead") xs).

(** The [name] entries of the lead-create requests, in order. *)
Definition lead_names (xs : list exchange) : list json :=
  flat_map
    (fun x =>
       if is_create "Lead" x then
         match req_payload (fst x) with
         | Json (JDict d) => [Dict.get_default "name" JNone d]
         | _ => []
         end
       else [])
    xs.

Definition sending (c : EspoAPI) (m : http_method) (action : string)
    (params : json) : log_entry :=
  (INFO, MsgSending m (api_request_of c m action params) params).

Definition lead_request (str_container : json -> string) (c : EspoAPI)
    (payload : Dict.t json) (t : datetime) : request :=
  api_request_of c POST "Lead"
    (JDict (Dict.set "name" (JStr (lead_name str_container payload t)) payload)).

Definition contact_request (str_container : json -> string) (c : EspoAPI)
    (first_name last_name phone_number : json) : request :=
  api_request_of c POST "Contact"
    (JDict (contact_payload str_container first_name last_name phone_number)).

Definition query_request (c : EspoAPI) (phone_number : json) : request :=
  api_request_of c GET "Contact" (JDict (contact_query phone_number)).

Definition success_result (key : string) (data : json) : json :=
  JDict [("status", JStr "success"); (key, data)].

Definition found (total phone_number : json) : log_entry :=
  (INFO, MsgFound total phone_number).

Definition queried (c : EspoAPI) (phone_number : json) (w : world)
    (st : state) : state :=
  add_exchange
    (add_log st [sending c GET "Contact" (JDict (contact_query phone_number))])
    (query_request c phone_number,
     http w (exchanges st) (query_request c phone_number)).

Definition pushed (result : json) : json :=
  JDict [("status", JStr "pushed"); ("crm_result", result)].

(** The three arguments that [push_to_crm] hands to [get_contact]. *)
Definition first_name_of (params : Dict.t json) : json :=
  get_or_null "firstName" params.
Definition last_name_of (params : Dict.t json) : json :=
  get_or_null "lastName" params.
Definition phone_of (params : Dict.t json) : json :=
  get_or_null "phoneNumber" params.

Definition pushing (params : Dict.t json) (st : state) : state :=
  add_log st [(INFO, MsgPushing (first_name_of params) (last_name_of params)
                       (phone_of params))].

(** The reply of an invocation to its contact query. *)
Definition query_reply (params : Dict.t json) (w : world) (st : state)
  : reply :=
  http w (exchanges st) (query_request default_client (phone_of params)).

(** The reply of an invocation to its contact-create request, which comes
    second. *)
Definition contact_reply (sc : json -> string) (params : Dict.t json)
    (w : world) (st : state) : reply :=
  http w
    (exchanges st
     ++ [(query_request default_client (phone_of params),
          query_reply params w st)])
    (contact_request sc default_client (first_name_of params)
       (last_name_of params) (phone_of params)).

(** The status of a result mapping. *)
Definition status_of (result : json) : json :=
  match result with
  | JDict d => Dict.get_default "status" JNone d
  | _ => JNone
  end.

(** Two lead creations for the same person, one after the other. *)
Definition two_leads (sc : json -> string)
    (first_name last_name phone : json) : M json :=
  create_lead sc default_client (lead_payload first_name last_name phone) ;;
  create_lead sc default_client (lead_payload first_name last_name phone).

(** ** Concrete CRM servers and a concrete person *)

Definition no_containers : json -> string := fun _ => "".

Definition person : Dict.t json :=
  [("firstName", JStr "Ann"); ("lastName", JStr "Lee");
   ("phoneNumber", JStr "+380501234567")].

Definition stored_contact : json :=
  JDict [("id", JStr "C1"); ("phoneNumber", JStr "+380501234567");
         ("createdById", JStr "U1")].

Definition stored_lead : json :=
  JDict [("id", JStr "L1"); ("phoneNumber", JStr "+380501234567");
         ("createdById", JStr "U1")].

Definition server_error : reply :=
  Reply (Response 500 "Internal Server Error" None BodyEmpty).

Definition contact_list (found_contacts : list json) : reply :=
  ok_json (JDict [("total", JNum (Z.of_nat (List.length found_contacts)));
                  ("list", JList found_contacts)]).

(** Successive readings of the clock within one second. *)
Definition within_noon (n : nat) : datetime := DateTime 2024 5 17 12 0 0 n.

(** Readings one second apart. *)
Definition ticking (n : nat) : datetime := DateTime 2024 5 17 12 0 n 0.

(** A CRM that knows the given contacts and accepts every creation. *)
Definition crm_with (found_contacts : list json) (clock : nat -> datetime)
  : world :=
  World
    (fun _ rq =>
       match req_method rq with
       | GET => contact_list found_contacts
       | _ =>
           if String.eqb (req_url rq) (normalize_url default_client "Contact")
           then ok_json stored_contact
           else ok_json stored_lead
       end)
    clock.

(** A CRM that knows no contact and refuses every creation. *)
Definition crm_refusing : world :=
  World
    (fun _ rq =>
       match req_method rq with
       | GET => contact_list []
       | _ => server_error
       end)
    within_noon.

(** A CRM that answers every request with an error. *)
Definition crm_down : world := World (fun _ _ => server_error) within_noon.

(** * More of the two files *)

(** ** The leaves and the keys of a payload *)

(** The leaves of a payload, in the order in which [parse_json] meets
    them. *)
Fixpoint leaves (data : json) : list scalar :=
  match data with
  | JScalar v => [v]
  | JList l =>
      (fix of_items (l : list json) : list scalar :=
         match l with
         | [] => []
         | item :: l' => (leaves item ++ of_items l')%list
         end) l
  | JDict entries =>
      (fix of_entries (es : list (string * json)) : list scalar :=
         match es with
         | [] => []
         | (_, value) :: es' => (leaves value ++ of_entries es')%list
         end) entries
  end.

(** [s.startswith(p)] *)
Fixpoint starts_with (p s : string) : bool :=
  match p, s with
  | EmptyString, _ => true
  | String a p', String b s' => Ascii.eqb a b && starts_with p' s'
  | String _ _, EmptyString => false
  end.

(** [c in s] for a character [c] *)
Fixpoint has_char (c : ascii) (s : string) : bool :=
  match s with
  | EmptyString => false
  | String a s' => Ascii.eqb a c || has_char c s'
  end.

(** A key that holds neither of the two separators of a path. *)
Definition plain_key (key : string) : bool :=
  negb (has_char "."%char key) && negb (has_char "["%char key).

(** The keys that [parse_json] writes for the payload found at the path
    [parent_key]: the path itself, or the path followed by [.] or [[]. *)
Definition under (parent_key key : string) : Prop :=
  key = parent_key
  \/ exists rest,
      key = parent_key ++ "." ++ rest \/ key = parent_key ++ "[" ++ rest.

(** ** [http_build_query]

    The dictionary [pairs] that [_encode] fills; [urllib.parse.urlencode],
    which turns it into the query string, is the library's and is taken
    as it is. *)

(** An element of [parents_list]: a list index or a dictionary key. *)
Inductive path_key : Type :=
| KIndex (i : nat)
| KName (k : string).

(** [str(value)] on a leaf *)
Definition str_of_scalar (v : scalar) : string :=
  match v with
  | SNone => "None"
  | SBool true => "True"
  | SBool false => "False"
  | SNum z => str_of_Z z
  | SStr s => s
  end.

(** One turn of the loop of [_render_key]:
    [s = "[%s]" if depth > 0 or isinstance(x, int) else "%s"]. *)
Definition render_part (depth : nat) (x : path_key) : string :=
  match x with
  | KIndex i => "[" ++ str_of_nat i ++ "]"
  | KName k => if (0 <? depth)%nat then "[" ++ k ++ "]" else k
  end.

Definition _render_key (parents : list path_key) : string :=
  snd (fold_left
         (fun acc x => (S (fst acc), snd acc ++ render_part (fst acc) x))
         parents (0%nat, "")).

(** [parents_list] is extended for the recursive call and restored after
    it; [pairs] is the dictionary shared by all the calls. *)
Fixpoint _encode (value : json) (parents_list : list path_key)
    (pairs : Dict.t string) {struct value} : Dict.t string :=
  match value with
  | JList l =>
      (fix enumerate (l : list json) (i : nat) (pairs : Dict.t string)
         : Dict.t string :=
         match l with
         | [] => pairs
         | v :: l' =>
             enumerate l' (S i)
               (_encode v (parents_list ++ [KIndex i])%list pairs)
         end) l 0%nat pairs
  | JDict entries =>
      (fix items (es : list (string * json)) (pairs : Dict.t string)
         : Dict.t string :=
         match es with
         | [] => pairs
         | (k, v) :: es' =>
             items es' (_encode v (parents_list ++ [KName k])%list pairs)
         end) entries pairs
  | JScalar v => Dict.set (_render_key parents_list) (str_of_scalar v) pairs
  end.

(** [pairs] at the end of [http_build_query(data)]. *)
Definition query_pairs (data : json) : Dict.t string := _encode data [] [].

Definition http_build_query (urlencode : Dict.t string -> string)
    (data : json) : string :=
  urlencode (query_pairs data).

(** The assignments [result[key] = leaf] that [parse_json] makes for a
    payload found at the path [parent_key], in order. *)
Fixpoint writes (data : json) (parent_key : string)
  : list (string * scalar) :=
  match data with
  | JScalar v => [(parent_key, v)]
  | JList l =>
      (fix of_items (l : list json) (index : nat) : list (string * scalar) :=
         match l with
         | [] => []
         | item :: l' =>
             (writes item (list_key parent_key index)
              ++ of_items l' (S index))%list
         end) l 0%nat
  | JDict entries =>
      (fix of_entries (es : list (string * json)) : list (string * scalar) :=
         match es with
         | [] => []
         | (key, value) :: es' =>
             (writes value (dict_key parent_key key) ++ of_entries es')%list
         end) entries
  end.

(** A run of assignments to a dictionary. *)
Definition assign_all {V} (ws : list (string * V)) (d : Dict.t V)
  : Dict.t V :=
  fold_left (fun d kv => Dict.set (fst kv) (snd kv) d) ws d.

(** ** Observations on a call placement *)

(** The document that [make_call] returns for a reply: the reply has a
    status that [raise_for_status] lets through and a body that
    decodes. *)
Definition call_answer (rp : reply) : option json :=
  match rp with
  | NoReply _ => None
  | Reply r =>
      if ((400 <=? status_code r) && (status_code r <? 600))%Z then None
      else
        match content r with
        | BodyJson j => Some j
        | _ => None
        end
  end.

(** ** From the CRM connector to the call orchestrator *)

(** The event that carries what [push_to_crm] returned. *)
Definition event_of (result : json) : Dict.t json := [("result", result)].

(** What [push_to_crm] returned, or null when it raised. *)
Definition returned (o : outcome json) : json :=
  match o with
  | Returned result => result
  | Raised _ => JNone
  end.

(** The lead-create request of an invocation. *)
Definition lead_request_of (sc : json -> string) (params : Dict.t json)
    (w : world) (st : state) : request :=
  lead_request sc default_client
    (lead_payload (first_name_of params) (last_name_of params)
       (phone_of params))
    (now w (clock_reads st)).

(** The reply to it when it follows the query and a contact creation. *)
Definition lead_reply_created (sc : json -> string) (params : Dict.t json)
    (w : world) (st : state) : reply :=
  http w
    (exchanges st
     ++ [(query_request default_client (phone_of params),
          query_reply params w st);
         (contact_request sc default_client (first_name_of params)
            (last_name_of params) (phone_of params),
          contact_reply sc params w st)])
    (lead_request_of sc params w st).

(** The reply to it when it follows the query alone. *)
Definition lead_reply_existing (sc : json -> string) (params : Dict.t json)
    (w : world) (st : state) : reply :=
  http w
    (exchanges st
     ++ [(query_request default_client (phone_of params),
          query_reply params w st)])
    (lead_request_of sc params w st).

(** A CRM that knows the given contacts, accepts the creation of a
    contact and refuses the creation of a lead. *)
Definition crm_without_leads (found_contacts : list json) : world :=
  World
    (fun _ rq =>
       match req_method rq with
       | GET => contact_list found_contacts
       | _ =>
           if String.eqb (req_url rq) (normalize_url default_client "Contact")
           then ok_json stored_contact
           else server_error
       end)
    within_noon.

(** ** What a sub-step makes of an unanswered request *)

(** The exception that a sub-step meets when the reply to its request
    gives no document: the one [requests] raises when there is no reply,
    the [EspoAPIError] of [EspoAPI.request] for a status other than 200 or
    an empty body, the decoding error of [response.json()] for a body that
    does not decode. *)
Definition failure_exn (rp : reply) : exn :=
  match rp with
  | NoReply error => Exn RequestException error
  | Reply r =>
      if negb (status_code r =? 200)%Z then
        Exn EspoAPIError
          ("Wrong request, status code " ++ str_of_Z (status_code r)
           ++ ", reason: " ++ parse_reason r)
      else
        match content r with
        | BodyEmpty => Exn EspoAPIError "Empty response content"
        | BodyRaw decode_error => Exn RequestException decode_error
        | BodyJson _ => Exn RequestException ""
        end
  end.

(** The mapping [{status: "error", message}] for a reply. *)
Definition failed (rp : reply) : json := error_result (failure_exn rp).

(** What [create_contact] ([key] ["contact"]) and [create_lead] ([key]
    ["lead"]) return for the reply to their request. *)
Definition step_result (key : string) (rp : reply) : json :=
  match answer_of rp with
  | Some data => success_result key data
  | None => failed rp
  end.

(** The lines logged at the level [ERROR]. *)
Definition error_lines (st : state) : list log_entry :=
  filter (fun l => match fst l with ERROR => true | _ => false end) (log st).

(** The reply of an invocation of [start_call] to its status query. *)
Definition status_reply (params : Dict.t json) (w : world) (st : state)
  : reply :=
  http w (exchanges st) status_request.

(** The status query fails: there is no reply, or the body of the reply
    is not a JSON document. *)
Definition status_query_fails (rp : reply) : Prop :=
  match rp with
  | NoReply _ => True
  | Reply r => match content r with BodyJson _ => False | _ => True end
  end.

(** The exception that the status query meets then. *)
Definition status_failure (rp : reply) : exn :=
  match rp with
  | NoReply error => Exn RequestException error
  | Reply r =>
      match content r with
      | BodyRaw decode_error => Exn RequestException decode_error
      | _ => Exn RequestException "Expecting value: line 1 column 1 (char 0)"
      end
  end.

(** * Properties of the flattener *)

Example parse_json_nested_dict :
  parse_json (JDict [("a", JDict [("b", JNum 1)])]) = [("a.b", SNum 1)].
Proof. reflexivity. Qed.

Example parse_json_list :
  parse_json (JDict [("a", JList [JNum 1; JNum 2])])
  = [("a[0]", SNum 1); ("a[1]", SNum 2)].
Proof. reflexivity. Qed.

Example parse_json_scalar : parse_json (JNum 5) = [("", SNum 5)].
Proof. reflexivity. Qed.

Example last_chars_long : last_chars 9 "+380501234567" = "501234567".
Proof. reflexivity. Qed.

Example last_chars_short : last_chars 9 "12345" = "12345".
Proof. reflexivity. Qed.

Example strftime_noon : strftime noon = "20240517120000".
Proof. reflexivity. Qed.

Lemma dict_key_top (key : string) : dict_key "" key = key.
Proof. reflexivity. Qed.

Lemma set_fresh {V} (k : string) (v : V) (d : Dict.t V) :
  ~ In k (Dict.keys d) -> Dict.set k v d = (d ++ [(k, v)])%list.
Proof.
  induction d as [|[k' v'] d IH]; simpl; intros Hk.
  - reflexivity.
  - destruct (String.eqb_spec k k') as [->|Hne].
    + exfalso. apply Hk. now left.
    + f_equal. apply IH. intros Hin. apply Hk. now right.
Qed.

Lemma parse_flat_acc (d result : Dict.t scalar) :
  parse_json_acc (flat d) "" result
  = fold_left (fun r kv => Dict.set (fst kv) (snd kv) r) d result.
Proof.
  revert result. induction d as [|[k v] d IH]; intros result.
  - reflexivity.
  - simpl. rewrite <- IH. reflexivity.
Qed.

Lemma fold_set_fresh (d result : Dict.t scalar) :
  NoDup (Dict.keys (result ++ d)%list) ->
  fold_left (fun r kv => Dict.set (fst kv) (snd kv) r) d result = (result ++ d)%list.
Proof.
  revert result. induction d as [|[k v] d IH]; intros result Hnd.
  - now rewrite app_nil_r.
  - simpl. rewrite set_fresh.
    + rewrite IH; rewrite <- app_assoc; simpl; auto.
    + unfold Dict.keys in *. rewrite map_app in Hnd. simpl in Hnd.
      apply NoDup_remove_2 in Hnd. intros Hin. apply Hnd.
      apply in_or_app. now left.
Qed.

(** ** The result of the flattener is a dictionary *)

Lemma json_induction (P : json -> Prop) :
  (forall v, P (JScalar v)) ->
  (forall l, Forall P l -> P (JList l)) ->
  (forall d, Forall (fun kv => P (snd kv)) d -> P (JDict d)) ->
  forall j, P j.
Proof.
  intros Hs Hl Hd.
  fix IH 1. intros [v|l|d].
  - apply Hs.
  - apply Hl. induction l as [|x l IHl]; constructor; [apply IH|exact IHl].
  - apply Hd. induction d as [|[k x] d IHd]; constructor;
      [apply IH|exact IHd].
Qed.

Lemma set_keys {V} (k : string) (v : V) (d : Dict.t V) :
  In k (Dict.keys d) -> Dict.keys (Dict.set k v d) = Dict.keys d.
Proof.
  induction d as [|[k' v'] d IH]; simpl; intros Hin; [contradiction|].
  destruct (String.eqb_spec k k') as [->|Hne]; [reflexivity|].
  simpl. f_equal. apply IH. destruct Hin as [Heq|Hin]; [congruence|exact Hin].
Qed.

Lemma set_wf {V} (k : string) (v : V) (d : Dict.t V) :
  Dict.wf d -> Dict.wf (Dict.set k v d).
Proof.
  unfold Dict.wf. intros Hwf.
  destruct (in_dec string_dec k (Dict.keys d)) as [Hin|Hout].
  - now rewrite set_keys.
  - rewrite set_fresh by exact Hout. unfold Dict.keys. rewrite map_app.
    simpl. apply NoDup_app; [exact Hwf|repeat constructor; auto|].
    intros x Hx [<-|[]]. now apply Hout.
Qed.

Lemma parse_json_acc_wf (data : json) :
  forall parent_key result,
    Dict.wf result -> Dict.wf (parse_json_acc data parent_key result).
Proof.
  induction data as [v|l IHl|d IHd] using json_induction;
    intros parent_key result Hwf.
  - now apply set_wf.
  - simpl. generalize 0%nat. revert result Hwf.
    induction IHl as [|x l Hx _ IH]; intros result Hwf index; [exact Hwf|].
    apply IH. now apply Hx.
  - simpl. revert result Hwf.
    induction IHd as [|[k x] d Hx _ IH]; intros result Hwf; [exact Hwf|].
    apply IH. now apply Hx.
Qed.

(** Flattening the result of a flattening changes nothing. *)
Lemma parse_json_twice (data : json) :
  parse_json (flat (parse_json data)) = parse_json data.
Proof.
  unfold parse_json at 1. rewrite parse_flat_acc, fold_set_fresh;
    [reflexivity|].
  simpl. apply parse_json_acc_wf. constructor.
Qed.

(** C8. The flattener maps [{"a":{"b":1}}] to [{"a.b": 1}] and
    [{"a":[1,2]}] to [{"a[0]":1, "a[1]":2}], and flattening a mapping that
    is already flat (string keys, scalar values) gives the same mapping
    back, entry for entry. *)
Theorem parse_json_flat_idempotent :
  parse_json (JDict [("a", JDict [("b", JNum 1)])]) = [("a.b", SNum 1)]
  /\ parse_json (JDict [("a", JList [JNum 1; JNum 2])])
     = [("a[0]", SNum 1); ("a[1]", SNum 2)]
  /\ forall d : Dict.t scalar, Dict.wf d -> parse_json (flat d) = d.
Proof.
  split; [reflexivity|]. split; [reflexivity|].
  intros d Hwf. unfold parse_json. rewrite parse_flat_acc.
  now rewrite fold_set_fresh.
Qed.

Lemma parse_json_flat_idempotent_witness :
  Dict.wf [("x", SNum 7); ("y.z", SStr "v"); ("w[0]", SNone)]
  /\ parse_json (flat [("x", SNum 7); ("y.z", SStr "v"); ("w[0]", SNone)])
     = [("x", SNum 7); ("y.z", SStr "v"); ("w[0]", SNone)].
Proof.
  assert (H : Dict.wf [("x", SNum 7); ("y.z", SStr "v"); ("w[0]", SNone)]).
  { unfold Dict.wf; simpl.
    repeat (constructor; [simpl; intuition discriminate|]). constructor. }
  split; [exact H|].
  exact (proj2 (proj2 parse_json_flat_idempotent) _ H).
Defined.

(** * Properties of the call gate *)

Lemma add_log_add_log (st : state) (a b : list log_entry) :
  add_log (add_log st a) b = add_log st (a ++ b).
Proof. unfold add_log; simpl. now rewrite app_assoc. Qed.

Lemma add_log_nil (st : state) : add_log st [] = st.
Proof. destruct st; unfold add_log; simpl. now rewrite app_nil_r. Qed.

Lemma emit_run (l : level) (m : message) (w : world) (st : state) :
  emit l m w st = (Returned tt, add_log st [(l, m)]).
Proof. reflexivity. Qed.

Lemma log_items_run (items : Dict.t scalar) (w : world) (st : state) :
  log_items items w st = (Returned tt, add_log st (items_log items)).
Proof.
  revert st. induction items as [|[k v] items IH]; intros st; simpl.
  - unfold ret. now rewrite add_log_nil.
  - unfold bind. rewrite emit_run, IH, add_log_add_log. reflexivity.
Qed.

Lemma truthy_py_and (a b : scalar) :
  truthy (py_and a b) = truthy a && truthy b.
Proof. unfold py_and. destruct (truthy a) eqn:E; simpl; auto. Qed.

Lemma start_call_not_enough (params : Dict.t json) (w : world) (st : state) :
  truthy (resolve lead_id_keys (parsed_data_of params))
  && truthy (resolve number_id_keys (parsed_data_of params))
  && truthy (resolve created_by_id_keys (parsed_data_of params)) = false ->
  start_call params w st = (Returned tt, gave_up params st).
Proof.
  intros H. unfold start_call, bind. rewrite log_items_run.
  rewrite !truthy_py_and, H. cbn [negb].
  rewrite emit_run, add_log_add_log. reflexivity.
Qed.

Lemma start_call_enough (params : Dict.t json) (w : world) (st : state) :
  truthy (resolve lead_id_keys (parsed_data_of params))
  && truthy (resolve number_id_keys (parsed_data_of params))
  && truthy (resolve created_by_id_keys (parsed_data_of params)) = true ->
  start_call params w st
  = gate (resolve number_id_keys (parsed_data_of params)) w
      (fields_logged params st).
Proof.
  intros H. unfold start_call, bind. rewrite log_items_run.
  rewrite !truthy_py_and, H. cbn [negb].
  rewrite emit_run, add_log_add_log. reflexivity.
Qed.

Lemma absent_falsy (keys : aliases) (parsed_data : Dict.t scalar) :
  absent keys parsed_data -> truthy (resolve keys parsed_data) = false.
Proof.
  intros [H1 H2]. unfold resolve, get_or_none, Dict.get_default.
  now rewrite H1, H2.
Qed.

Lemma some_falsy_not_enough (parsed_data : Dict.t scalar) :
  Exists (fun keys => truthy (resolve keys parsed_data) = false) required ->
  truthy (resolve lead_id_keys parsed_data)
  && truthy (resolve number_id_keys parsed_data)
  && truthy (resolve created_by_id_keys parsed_data) = false.
Proof.
  unfold required. intros H.
  repeat match goal with
         | H : Exists _ (_ :: _) |- _ => apply Exists_cons in H; destruct H as [H|H]
         | H : Exists _ [] |- _ => inversion H
         end; rewrite H; simpl;
    repeat rewrite andb_false_r; reflexivity.
Qed.

Lemma issued_same_exchanges (st st' : state) :
  exchanges st' = exchanges st -> issued st st' = [].
Proof. unfold issued. intros ->. apply skipn_all. Qed.

(** C6. When one of the three required fields is missing under both of
    its paths, [start_call] logs the warning and returns normally: no
    request at all is sent (none to the telephony endpoint in
    particular) and nothing is raised. *)
Theorem start_call_missing_field (params : Dict.t json) (w : world)
    (st : state) :
  Exists (fun keys => absent keys (parsed_data_of params)) required ->
  start_call params w st = (Returned tt, gave_up params st)
  /\ issued st (gave_up params st) = []
  /\ last (log (gave_up params st)) (INFO, MsgCallActive)
     = (WARNING, MsgNotEnoughData).
Proof.
  intros H. split; [|split].
  - apply start_call_not_enough, some_falsy_not_enough.
    eapply Exists_impl; [|exact H]. intros keys. apply absent_falsy.
  - now apply issued_same_exchanges.
  - unfold gave_up, add_log; simpl. rewrite app_assoc. apply last_last.
Qed.

(** C9. When the three required fields are present in the flattened
    event but the value that one of them resolves to is falsy ([None],
    [0], the empty string or [False]), [start_call] behaves as for a
    missing field: the warning is logged, no request is sent and the call
    returns normally. *)
Theorem start_call_falsy_field (params : Dict.t json) (w : world)
    (st : state) :
  Forall (fun keys => present keys (parsed_data_of params)) required ->
  Exists (fun keys => truthy (resolve keys (parsed_data_of params)) = false)
    required ->
  start_call params w st = (Returned tt, gave_up params st)
  /\ issued st (gave_up params st) = []
  /\ to_telephony (issued st (snd (start_call params w st))) = [].
Proof.
  intros _ H.
  assert (E : start_call params w st = (Returned tt, gave_up params st))
    by now apply start_call_not_enough, some_falsy_not_enough.
  split; [exact E|]. rewrite E. simpl.
  rewrite issued_same_exchanges by reflexivity. now split.
Qed.

Lemma issued_app (st st' : state) (xs : list exchange) :
  exchanges st' = (exchanges st ++ xs)%list -> issued st st' = xs.
Proof.
  unfold issued. intros ->. rewrite skipn_app, skipn_all, Nat.sub_diag.
  reflexivity.
Qed.

(** It raises exactly when there is no reply or the reply does not hold a
    JSON document; the status code of the reply plays no part. *)
Lemma status_try_raises (w : world) (st : state) :
  (exists e, fst (status_try w st) = Raised e)
  <-> match http w (exchanges st) status_request with
      | NoReply _ => True
      | Reply r => match content r with BodyJson _ => False | _ => True end
      end.
Proof.
  unfold status_try, bind, send, response_json, ret, raise.
  destruct (http w (exchanges st) status_request) as [err|r]; simpl.
  - split; eauto.
  - destruct (content r); simpl; split; intros H; eauto;
      try contradiction; destruct H; discriminate.
Qed.

Lemma status_try_exchanges (w : world) (st : state) :
  exchanges (snd (status_try w st))
  = (exchanges st
     ++ [(status_request, http w (exchanges st) status_request)])%list.
Proof.
  unfold status_try, bind, send, response_json, ret, raise.
  destruct (http w (exchanges st) status_request) as [err|r]; simpl.
  - reflexivity.
  - destruct (content r); reflexivity.
Qed.

Lemma observe_status_exchanges (w : world) (st : state) :
  exchanges (snd (observe_status w st))
  = (exchanges st
     ++ [(status_request, http w (exchanges st) status_request)])%list.
Proof.
  pose proof (status_try_exchanges w st) as H.
  unfold observe_status, query_status, bind, try_except.
  destruct (status_try w st) as [[j|e] st1]; simpl in *.
  - destruct j as [v|l|d]; simpl; auto.
  - exact H.
Qed.

Lemma make_call_string (s : string) (w : world) (st : state) :
  exists res st',
    make_call (SStr s) w st = (Returned res, st')
    /\ exchanges st'
       = (exchanges st
          ++ [(call_request (last_chars 9 s),
               http w (exchanges st) (call_request (last_chars 9 s)))])%list.
Proof.
  unfold make_call, slice_last9, bind, try_except, send, ret.
  destruct (http w (exchanges st) (call_request (last_chars 9 s)))
    as [err|r]; simpl.
  - eauto.
  - unfold raise_for_status.
    destruct ((400 <=? status_code r)%Z && (status_code r <? 500)%Z);
      simpl; [eauto|].
    destruct ((500 <=? status_code r)%Z && (status_code r <? 600)%Z);
      simpl; [eauto|].
    unfold response_json. destruct (content r); simpl; eauto.
Qed.

Lemma make_call_not_string (number : scalar) (w : world) (st : state) :
  (forall s, number <> SStr s) ->
  exists e, make_call number w st = (Raised e, st) /\ exn_kind e = TypeError.
Proof.
  intros H. unfold make_call, slice_last9, bind, raise.
  destruct number; simpl; eauto. now destruct (H s).
Qed.

Lemma placements_status_only (r : reply) :
  placements [(status_request, r)] = [].
Proof. reflexivity. Qed.

Lemma placements_status_call (n : string) (r r' : reply) :
  placements [(status_request, r); (call_request n, r')] = [JStr n].
Proof. reflexivity. Qed.

Lemma truthy_all (a b c : scalar) :
  truthy a = true -> truthy b = true -> truthy c = true ->
  truthy a && truthy b && truthy c = true.
Proof. now intros -> -> ->. Qed.

(** C5, as the code has it.  With the three fields resolved and the
    phone number a string: when the gate observes the status ["idle"],
    exactly one call-placement request is sent and it carries the last
    nine characters of the number; when it observes any other status, or
    cannot read a status out of the answer, no call-placement request is
    sent. *)
Theorem start_call_gate (params : Dict.t json) (w : world) (st : state)
    (number : string) :
  truthy (resolve lead_id_keys (parsed_data_of params)) = true ->
  resolve number_id_keys (parsed_data_of params) = SStr number ->
  number <> "" ->
  truthy (resolve created_by_id_keys (parsed_data_of params)) = true ->
  match fst (observe_status w (fields_logged params st)) with
  | Returned current_status =>
      placements (issued st (snd (start_call params w st)))
      = if is_idle current_status then [JStr (last_chars 9 number)] else []
  | Raised _ =>
      placements (issued st (snd (start_call params w st))) = []
  end.
Proof.
  intros Hl Hn Hne Hc.
  rewrite start_call_enough
    by (apply truthy_all; auto; rewrite Hn; simpl;
        now destruct (String.eqb_spec number "")).
  rewrite Hn. unfold gate, bind.
  pose proof (observe_status_exchanges w (fields_logged params st)) as Hx.
  destruct (observe_status w (fields_logged params st)) as [[cs|e] st2].
  - simpl in Hx |- *. destruct (is_idle cs).
    + destruct (make_call_string number w st2) as (res & st3 & -> & Hx3).
      simpl.
      rewrite (issued_app st st3 _
                 ltac:(rewrite Hx3, Hx, <- app_assoc; reflexivity)).
      apply placements_status_call.
    + rewrite emit_run. simpl.
      rewrite (issued_app st (add_log st2 [(INFO, MsgCallActive)]) _ Hx).
      apply placements_status_only.
  - simpl in Hx |- *. rewrite (issued_app st _ _ Hx).
    apply placements_status_only.
Qed.

Lemma start_call_gate_witness :
  placements
    (issued initial (snd (start_call event_string_phone telephony_idle initial)))
  = [JStr "501234567"].
Proof.
  exact (start_call_gate event_string_phone telephony_idle initial
           "+380501234567" eq_refl eq_refl
           ltac:(discriminate) eq_refl).
Defined.

(** The claim C5 as it is written fails for a phone number that is not a
    string: the three fields are resolved and the observed status is
    ["idle"], yet [number[-9:]] raises before any call-placement request
    is sent. *)
Lemma start_call_numeric_phone_no_call :
  truthy (resolve lead_id_keys (parsed_data_of event_numeric_phone)) = true
  /\ truthy (resolve number_id_keys (parsed_data_of event_numeric_phone))
     = true
  /\ truthy (resolve created_by_id_keys (parsed_data_of event_numeric_phone))
     = true
  /\ fst (observe_status telephony_idle
            (fields_logged event_numeric_phone initial))
     = Returned (JStr "idle")
  /\ placements
       (issued initial
          (snd (start_call event_numeric_phone telephony_idle initial)))
     = []
  /\ fst (start_call event_numeric_phone telephony_idle initial)
     = Raised (Exn TypeError "'int' object is not subscriptable").
Proof. vm_compute. repeat split. Qed.

(** The status code of the answer to the status query is not looked at:
    an answer with status 500 and a JSON body is read like any other, here
    as the status ["error"], so nothing is logged as an error and no call
    is placed. *)
Example status_error_code_with_json_body :
  fst (observe_status telephony_error_body
         (fields_logged event_string_phone initial))
  = Returned (JStr "error")
  /\ placements
       (issued initial
          (snd (start_call event_string_phone telephony_error_body initial)))
     = [].
Proof. vm_compute. split; reflexivity. Qed.

(** A falsy value under the lead-shaped path gives way to the value under
    the contact-shaped path. *)
Example falsy_lead_alias_falls_back :
  resolve lead_id_keys (parsed_data_of event_fallback) = SStr "C1"
  /\ placements
       (issued initial (snd (start_call event_fallback telephony_idle initial)))
     = [JStr "501234567"].
Proof. vm_compute. split; reflexivity. Qed.

Lemma start_call_missing_field_witness :
  Exists (fun keys => absent keys (parsed_data_of event_no_creator)) required
  /\ start_call event_no_creator telephony_idle initial
     = (Returned tt, gave_up event_no_creator initial).
Proof.
  assert (H : Exists (fun keys => absent keys (parsed_data_of event_no_creator))
                required).
  { unfold required. apply Exists_cons_tl, Exists_cons_tl, Exists_cons_hd.
    split; reflexivity. }
  split; [exact H|].
  exact (proj1 (start_call_missing_field event_no_creator telephony_idle
                  initial H)).
Defined.

Lemma start_call_falsy_field_witness :
  Forall (fun keys => present keys (parsed_data_of event_empty_phone)) required
  /\ truthy (resolve number_id_keys (parsed_data_of event_empty_phone)) = false
  /\ start_call event_empty_phone telephony_idle initial
     = (Returned tt, gave_up event_empty_phone initial).
Proof.
  assert (H1 : Forall (fun keys => present keys (parsed_data_of event_empty_phone))
                 required).
  { unfold required.
    repeat (apply Forall_cons; [left; discriminate|]). apply Forall_nil. }
  assert (H2 : Exists (fun keys =>
                         truthy (resolve keys (parsed_data_of event_empty_phone))
                         = false) required).
  { unfold required. apply Exists_cons_tl, Exists_cons_hd. reflexivity. }
  split; [exact H1|]. split; [reflexivity|].
  exact (proj1 (start_call_falsy_field event_empty_phone telephony_idle
                  initial H1 H2)).
Defined.

(** * Properties of the CRM workflow *)

Lemma http_failure_no_answer (rp : reply) :
  http_failure rp -> answer_of rp = None.
Proof.
  destruct rp as [err|r]; simpl; auto.
  intros [H|H].
  - destruct (Z.eqb_spec (status_code r) 200); [contradiction|reflexivity].
  - rewrite H. now destruct (status_code r =? 200)%Z.
Qed.

(** A request followed by the decoding of its answer: either the
    decoded document is handed on, or an exception is raised after the
    one exchange. *)
Lemma api_then_json {B} (c : EspoAPI) (m : http_method) (action : string)
    (params : json) (k : json -> M B) (w : world) (st : state) :
  let rq := api_request_of c m action params in
  let rp := http w (exchanges st) rq in
  match answer_of rp with
  | Some data =>
      (response <- api_request c m action params ;;
       data <- response_json response ;; k data) w st
      = k data w
          (add_exchange (add_log st [sending c m action params]) (rq, rp))
  | None =>
      exists e st',
        (response <- api_request c m action params ;;
         data <- response_json response ;; k data) w st
        = (Raised e, st')
        /\ exchanges st' = (exchanges st ++ [(rq, rp)])%list
        /\ clock_reads st' = clock_reads st
  end.
Proof.
  intros rq rp. unfold api_request, bind, emit, send; simpl.
  fold rq. fold rp. destruct rp as [err|r]; simpl.
  - eauto.
  - destruct (status_code r =? 200)%Z; simpl.
    + unfold response_json.
      destruct (content r) eqn:E; simpl; rewrite ?E; unfold raise; eauto.
    + eauto.
Qed.

(** [create_lead] never raises; it reads the clock once and makes one
    exchange, and its result follows the answer. *)
Lemma create_lead_run (sc : json -> string) (c : EspoAPI)
    (payload : Dict.t json) (w : world) (st : state) :
  let rq := lead_request sc c payload (now w (clock_reads st)) in
  let rp := http w (exchanges st) rq in
  exists res st',
    create_lead sc c payload w st = (Returned res, st')
    /\ exchanges st' = (exchanges st ++ [(rq, rp)])%list
    /\ clock_reads st' = S (clock_reads st)
    /\ match answer_of rp with
       | Some data => res = success_result "lead" data
       | None => exists e, res = error_result e
       end.
Proof.
  intros rq rp. unfold create_lead. unfold bind at 1. unfold datetime_now.
  unfold try_except.
  match goal with
  | |- context [bind (api_request c POST "Lead" ?p) (fun response => bind _ ?k)] =>
      pose proof (api_then_json c POST "Lead" p
                    (fun data => emit INFO (MsgLeadCreated data) ;;
                                 ret (success_result "lead" data)) w
                    (State (exchanges st) (log st) (S (clock_reads st)))) as H
  end.
  cbv zeta in H. simpl exchanges in H.
  fold (lead_request sc c payload (now w (clock_reads st))) in H.
  fold rq in H. fold rp in H.
  destruct (answer_of rp) as [data|].
  - unfold success_result in H. rewrite H. unfold bind, emit, ret; simpl.
    eauto 10.
  - destruct H as (e & st' & H & Hx & Hc). unfold success_result in H.
    rewrite H. simpl. unfold bind, emit, ret; simpl. eauto 10.
Qed.

(** [create_contact] never raises; it makes one exchange and its result
    follows the answer. *)
Lemma create_contact_run (sc : json -> string) (c : EspoAPI)
    (first_name last_name phone_number : json) (w : world) (st : state) :
  let rq := contact_request sc c first_name last_name phone_number in
  let rp := http w (exchanges st) rq in
  exists res st',
    create_contact sc c first_name last_name phone_number w st
    = (Returned res, st')
    /\ exchanges st' = (exchanges st ++ [(rq, rp)])%list
    /\ clock_reads st' = clock_reads st
    /\ match answer_of rp with
       | Some data => res = success_result "contact" data
       | None => exists e, res = error_result e
       end.
Proof.
  intros rq rp. unfold create_contact, try_except.
  pose proof (api_then_json c POST "Contact"
                (JDict (contact_payload sc first_name last_name phone_number))
                (fun data => emit INFO (MsgContactCreated data) ;;
                             ret (success_result "contact" data)) w st) as H.
  cbv zeta in H.
  fold (contact_request sc c first_name last_name phone_number) in H.
  fold rq in H. fold rp in H.
  destruct (answer_of rp) as [data|].
  - unfold success_result in H. rewrite H. unfold bind, emit, ret; simpl.
    eauto 10.
  - destruct H as (e & st' & H & Hx & Hc). unfold success_result in H.
    rewrite H. simpl. unfold bind, emit, ret; simpl. eauto 10.
Qed.

Lemma bind_run {A B} (m : M A) (k : A -> M B) (w : world) (st : state) :
  bind m k w st
  = match m w st with
    | (Returned a, st') => k a w st'
    | (Raised e, st') => (Raised e, st')
    end.
Proof. reflexivity. Qed.

(** The zero-match path when the contact cannot be created. *)
Lemma upsert_zero_contact_failed (sc : json -> string) (c : EspoAPI)
    (d : Dict.t json) (first_name last_name phone_number : json)
    (w : world) (st : state) :
  let total := Dict.get_default "total" (JNum 0) d in
  let rq := contact_request sc c first_name last_name phone_number in
  let rp := http w (exchanges st) rq in
  eq_zero total = true ->
  answer_of rp = None ->
  exists e st',
    upsert sc c (JDict d) first_name last_name phone_number w st
    = (Returned (error_result e), st')
    /\ create_contact sc c first_name last_name phone_number w
         (add_log st [found total phone_number])
       = (Returned (error_result e), st')
    /\ exchanges st' = (exchanges st ++ [(rq, rp)])%list.
Proof.
  intros total rq rp Hz Hno.
  destruct (create_contact_run sc c first_name last_name phone_number w
              (add_log st [found total phone_number]))
    as (res & st' & Hrun & Hx & _ & Hres).
  simpl exchanges in Hx, Hres. fold rq in Hx, Hres. fold rp in Hx, Hres.
  rewrite Hno in Hres. destruct Hres as [e ->].
  exists e, st'. split; [|split; assumption].
  unfold upsert. rewrite bind_run. cbn [method_get ret]. fold total.
  rewrite bind_run, emit_run, Hz. fold (found total phone_number).
  rewrite bind_run, Hrun. reflexivity.
Qed.

(** The zero-match path when the contact is created. *)
Lemma upsert_zero_contact_created (sc : json -> string) (c : EspoAPI)
    (d : Dict.t json) (first_name last_name phone_number data : json)
    (w : world) (st : state) :
  let total := Dict.get_default "total" (JNum 0) d in
  let rq := contact_request sc c first_name last_name phone_number in
  let rp := http w (exchanges st) rq in
  let rq' := lead_request sc c (lead_payload first_name last_name phone_number)
               (now w (clock_reads st)) in
  let rp' := http w (exchanges st ++ [(rq, rp)]) rq' in
  eq_zero total = true ->
  answer_of rp = Some data ->
  exists lead_result st',
    upsert sc c (JDict d) first_name last_name phone_number w st
    = (Returned (JDict [("status", JStr "created");
                        ("contact", success_result "contact" data);
                        ("lead", lead_result)]), st')
    /\ exchanges st' = (exchanges st ++ [(rq, rp); (rq', rp')])%list
    /\ match answer_of rp' with
       | Some data' => lead_result = success_result "lead" data'
       | None => exists e, lead_result = error_result e
       end.
Proof.
  intros total rq rp rq' rp' Hz Hyes.
  destruct (create_contact_run sc c first_name last_name phone_number w
              (add_log st [found total phone_number]))
    as (res & st1 & Hrun & Hx & Hc & Hres).
  simpl exchanges in Hx, Hres. simpl clock_reads in Hc.
  fold rq in Hx, Hres. fold rp in Hx, Hres.
  rewrite Hyes in Hres. subst res.
  destruct (create_lead_run sc c
              (lead_payload first_name last_name phone_number) w st1)
    as (lead_result & st2 & Hrun' & Hx' & _ & Hres').
  rewrite Hc, Hx in Hx', Hres'. fold rq' in Hx', Hres'. fold rp' in Hx', Hres'.
  exists lead_result, st2. split; [|split].
  - unfold upsert. rewrite bind_run. cbn [method_get ret]. fold total.
    rewrite bind_run, emit_run, Hz. fold (found total phone_number).
    rewrite bind_run, Hrun.
    rewrite bind_run. cbn [item success_result Dict.get String.eqb Ascii.eqb
                             Bool.eqb ret eq_str JStr negb].
    rewrite bind_run, Hrun'. reflexivity.
  - rewrite Hx', <- app_assoc. reflexivity.
  - exact Hres'.
Qed.

(** The path of an existing contact. *)
Lemma upsert_match (sc : json -> string) (c : EspoAPI)
    (d : Dict.t json) (first_name last_name phone_number contact : json)
    (rest : list json) (w : world) (st : state) :
  let total := Dict.get_default "total" (JNum 0) d in
  let rq' := lead_request sc c (lead_payload first_name last_name phone_number)
               (now w (clock_reads st)) in
  let rp' := http w (exchanges st) rq' in
  eq_zero total = false ->
  Dict.get "list" d = Some (JList (contact :: rest)) ->
  exists lead_result st',
    upsert sc c (JDict d) first_name last_name phone_number w st
    = (Returned (JDict [("status", JStr "success");
                        ("contact", contact);
                        ("lead", lead_result)]), st')
    /\ exchanges st' = (exchanges st ++ [(rq', rp')])%list
    /\ match answer_of rp' with
       | Some data' => lead_result = success_result "lead" data'
       | None => exists e, lead_result = error_result e
       end.
Proof.
  intros total rq' rp' Hnz Hlist.
  destruct (create_lead_run sc c
              (lead_payload first_name last_name phone_number) w
              (add_log st [found total phone_number]))
    as (lead_result & st2 & Hrun' & Hx' & _ & Hres').
  simpl exchanges in Hx', Hres'. simpl clock_reads in Hx', Hres'.
  fold rq' in Hx', Hres'. fold rp' in Hx', Hres'.
  exists lead_result, st2. split; [|split; assumption].
  unfold upsert. rewrite bind_run. cbn [method_get ret]. fold total.
  rewrite bind_run, emit_run, Hnz. fold (found total phone_number).
  rewrite bind_run. cbn [item]. rewrite Hlist. cbn [ret].
  rewrite bind_run. cbn [first_item ret].
  rewrite bind_run, Hrun'. reflexivity.
Qed.

(** Whatever the decoded answer, [upsert] makes no exchange before a
    create request, and it only raises without having made any. *)
Lemma upsert_raises (sc : json -> string) (c : EspoAPI)
    (data first_name last_name phone_number : json)
    (w : world) (st st' : state) (e : exn) :
  upsert sc c data first_name last_name phone_number w st = (Raised e, st') ->
  exchanges st' = exchanges st.
Proof.
  unfold upsert. rewrite bind_run.
  destruct data as [v|l|d]; cbn [method_get ret raise];
    try (intros H; injection H as _ <-; reflexivity).
  rewrite bind_run, emit_run.
  destruct (eq_zero (Dict.get_default "total" (JNum 0) d)).
  - rewrite bind_run.
    destruct (create_contact_run sc c first_name last_name phone_number w
                (add_log st [(INFO, MsgFound (Dict.get_default "total" (JNum 0) d)
                                      phone_number)]))
      as (res & st1 & -> & _ & _ & Hres).
    rewrite bind_run.
    destruct (answer_of _) as [data|] in Hres.
    + subst res. cbn [item success_result Dict.get String.eqb Ascii.eqb
                        Bool.eqb ret eq_str JStr negb].
      rewrite bind_run.
      destruct (create_lead_run sc c
                  (lead_payload first_name last_name phone_number) w st1)
        as (lr & st2 & -> & _). discriminate.
    + destruct Hres as [e' ->]. discriminate.
  - rewrite bind_run.
    destruct (item (JDict d) "list" w _) as [[found_list|e1] st1] eqn:Hitem.
    + cbn [item] in Hitem. destruct (Dict.get "list" d); [|discriminate].
      injection Hitem as <- <-.
      rewrite bind_run.
      destruct (first_item j w _) as [[contact|e2] st2] eqn:Hfirst.
      * rewrite bind_run.
        destruct (create_lead_run sc c
                    (lead_payload first_name last_name phone_number) w st2)
          as (lr & st3 & -> & _). discriminate.
      * intros H. injection H as _ <-.
        destruct j as [[| | |[|a s]]|[|x l]|d']; cbn in Hfirst;
          injection Hfirst as _ <-; reflexivity.
    + intros H. injection H as _ <-.
      cbn [item] in Hitem. destruct (Dict.get "list" d); [discriminate|].
      injection Hitem as _ <-. reflexivity.
Qed.

Lemma exists_failure_inv (x : exchange) (xs : list exchange) :
  Exists (fun x => http_failure (snd x)) (x :: xs) ->
  answer_of (snd x) = None \/ Exists (fun x => http_failure (snd x)) xs.
Proof.
  intros H. apply Exists_cons in H. destruct H as [H|H]; auto.
  left. now apply http_failure_no_answer.
Qed.

(** When [upsert] returns, the exchanges it has made are appended to the
    earlier ones; if one of them failed, the error result is what it
    returns or what it returns under ["lead"]. *)
Lemma upsert_returns (sc : json -> string) (c : EspoAPI)
    (data first_name last_name phone_number result : json)
    (w : world) (st st' : state) :
  upsert sc c data first_name last_name phone_number w st
  = (Returned result, st') ->
  exists new,
    exchanges st' = (exchanges st ++ new)%list
    /\ (Exists (fun x => http_failure (snd x)) new ->
        exists e,
          result = error_result e
          \/ exists status contact,
              result = JDict [("status", status); ("contact", contact);
                              ("lead", error_result e)]).
Proof.
  intros Hrun. destruct data as [v|l|d];
    try (unfold upsert in Hrun; rewrite bind_run in Hrun; discriminate).
  destruct (eq_zero (Dict.get_default "total" (JNum 0) d)) eqn:Hz.
  - destruct (answer_of (http w (exchanges st)
                (contact_request sc c first_name last_name phone_number)))
      as [data|] eqn:Hc.
    + destruct (upsert_zero_contact_created sc c d first_name last_name
                  phone_number data w st Hz Hc)
        as (lead_result & st2 & Hrun2 & Hx & Hres).
      rewrite Hrun2 in Hrun. injection Hrun as <- <-.
      eexists. split; [exact Hx|]. intros Hfail.
      apply exists_failure_inv in Hfail. simpl snd in Hfail.
      destruct Hfail as [Hfail|Hfail]; [congruence|].
      apply exists_failure_inv in Hfail. simpl snd in Hfail.
      destruct Hfail as [Hfail|Hfail]; [|inversion Hfail].
      rewrite Hfail in Hres. destruct Hres as [e ->].
      exists e. right. eauto.
    + destruct (upsert_zero_contact_failed sc c d first_name last_name
                  phone_number w st Hz Hc) as (e & st2 & Hrun2 & _ & Hx).
      rewrite Hrun2 in Hrun. injection Hrun as <- <-. eauto.
  - unfold upsert in Hrun. rewrite bind_run in Hrun.
    cbn [method_get ret] in Hrun.
    rewrite bind_run, emit_run, Hz in Hrun. rewrite bind_run in Hrun.
    cbn [item] in Hrun.
    destruct (Dict.get "list" d) as [found_list|] eqn:Hlist; [|discriminate].
    cbn [ret] in Hrun. rewrite bind_run in Hrun.
    destruct (first_item found_list w _) as [[contact|e2] st2] eqn:Hfirst;
      [|discriminate].
    assert (Hst2 : exchanges st2 = exchanges st
                   /\ clock_reads st2 = clock_reads st).
    { destruct found_list as [[| | |[|a s]]|[|x l]|d']; cbn in Hfirst;
        try discriminate; injection Hfirst as _ <-; split; reflexivity. }
    destruct Hst2 as [Hx2 Hc2].
    rewrite bind_run in Hrun.
    destruct (create_lead_run sc c
                (lead_payload first_name last_name phone_number) w st2)
      as (lead_result & st3 & Hrun3 & Hx3 & _ & Hres).
    rewrite Hrun3 in Hrun. cbn [ret] in Hrun. injection Hrun as <- <-.
    rewrite Hx2 in Hx3. eexists. split; [exact Hx3|]. intros Hfail.
    apply exists_failure_inv in Hfail. simpl snd in Hfail.
    destruct Hfail as [Hfail|Hfail]; [|inversion Hfail].
    rewrite Hx2 in Hres. rewrite Hfail in Hres. destruct Hres as [e ->].
    exists e. right. eauto.
Qed.

Lemma get_contact_answered (sc : json -> string) (c : EspoAPI)
    (first_name last_name phone_number data : json) (w : world) (st : state) :
  answer_of (http w (exchanges st) (query_request c phone_number)) = Some data ->
  get_contact sc c first_name last_name phone_number w st
  = upsert sc c data first_name last_name phone_number w
      (queried c phone_number w st).
Proof.
  intros Hq. unfold get_contact. rewrite bind_run. unfold try_except.
  pose proof (api_then_json c GET "Contact"
                (JDict (contact_query phone_number))
                (fun data => ret (inl data : json + json)) w st) as H.
  cbv zeta in H. fold (query_request c phone_number) in H.
  rewrite Hq in H. rewrite H. reflexivity.
Qed.

Lemma get_contact_unanswered (sc : json -> string) (c : EspoAPI)
    (first_name last_name phone_number : json) (w : world) (st : state) :
  answer_of (http w (exchanges st) (query_request c phone_number)) = None ->
  exists e st',
    get_contact sc c first_name last_name phone_number w st
    = (Returned (error_result e), st')
    /\ exchanges st'
       = (exchanges st
          ++ [(query_request c phone_number,
               http w (exchanges st) (query_request c phone_number))])%list.
Proof.
  intros Hq. unfold get_contact. rewrite bind_run. unfold try_except.
  pose proof (api_then_json c GET "Contact"
                (JDict (contact_query phone_number))
                (fun data => ret (inl data : json + json)) w st) as H.
  cbv zeta in H. fold (query_request c phone_number) in H.
  rewrite Hq in H. destruct H as (e & st1 & H & Hx & _). rewrite H.
  exists e. eexists. split; [reflexivity|]. exact Hx.
Qed.

(** [push_to_crm] wraps what [get_contact] returns and turns what it
    raises into an error result. *)
Lemma push_to_crm_run (sc : json -> string) (params : Dict.t json)
    (w : world) (st : state) :
  push_to_crm sc params w st
  = match get_contact sc default_client (first_name_of params)
            (last_name_of params) (phone_of params) w (pushing params st) with
    | (Returned result, st') =>
        (Returned (pushed result), add_log st' [(INFO, MsgPushResult result)])
    | (Raised e, st') =>
        (Returned (error_result e), add_log st' [(ERROR, MsgPushError e)])
    end.
Proof.
  unfold push_to_crm. rewrite bind_run, emit_run. unfold try_except.
  rewrite bind_run.
  fold (first_name_of params) (last_name_of params) (phone_of params).
  fold (pushing params st).
  destruct (get_contact sc default_client (first_name_of params)
              (last_name_of params) (phone_of params) w (pushing params st))
    as [[result|e] st'].
  - rewrite bind_run, emit_run. reflexivity.
  - rewrite bind_run, emit_run. reflexivity.
Qed.

Lemma counts_query_contact_lead (sc : json -> string)
    (first_name last_name phone : json) (t : datetime) (r1 r2 r3 : reply) :
  let xs := [(query_request default_client phone, r1);
             (contact_request sc default_client first_name last_name phone, r2);
             (lead_request sc default_client
                (lead_payload first_name last_name phone) t, r3)] in
  contact_creates xs = 1 /\ lead_creates xs = 1.
Proof. split; reflexivity. Qed.

Lemma counts_query_contact (sc : json -> string)
    (first_name last_name phone : json) (r1 r2 : reply) :
  let xs := [(query_request default_client phone, r1);
             (contact_request sc default_client first_name last_name phone, r2)]
  in contact_creates xs = 1 /\ lead_creates xs = 0.
Proof. split; reflexivity. Qed.

Lemma counts_query_lead (sc : json -> string)
    (first_name last_name phone : json) (t : datetime) (r1 r3 : reply) :
  let xs := [(query_request default_client phone, r1);
             (lead_request sc default_client
                (lead_payload first_name last_name phone) t, r3)] in
  contact_creates xs = 0 /\ lead_creates xs = 1.
Proof. split; reflexivity. Qed.

Lemma total_zero (d : Dict.t json) :
  Dict.get "total" d = Some (JNum 0) ->
  eq_zero (Dict.get_default "total" (JNum 0) d) = true.
Proof. unfold Dict.get_default. now intros ->. Qed.

Lemma total_positive (d : Dict.t json) (total : Z) :
  Dict.get "total" d = Some (JNum total) -> (0 < total)%Z ->
  eq_zero (Dict.get_default "total" (JNum 0) d) = false.
Proof.
  unfold Dict.get_default. intros -> H. simpl. apply Z.eqb_neq. lia.
Qed.

(** C3, as the code has it.  When the contact query succeeds and reports
    a total of 0 and the contact creation succeeds, [push_to_crm] sends
    exactly one contact-create and exactly one lead-create request, and
    the workflow result that it returns as [crm_result] has the status
    ["created"] and carries both outcomes. *)
Theorem push_to_crm_no_match (sc : json -> string) (params : Dict.t json)
    (w : world) (st : state) (d : Dict.t json) (data : json) :
  answer_of (query_reply params w st) = Some (JDict d) ->
  Dict.get "total" d = Some (JNum 0) ->
  answer_of (contact_reply sc params w st) = Some data ->
  exists lead_result st',
    push_to_crm sc params w st
    = (Returned (pushed (JDict [("status", JStr "created");
                                ("contact", success_result "contact" data);
                                ("lead", lead_result)])), st')
    /\ contact_creates (issued st st') = 1
    /\ lead_creates (issued st st') = 1.
Proof.
  intros Hq Hz Hc. apply total_zero in Hz.
  rewrite push_to_crm_run.
  rewrite (get_contact_answered sc default_client _ _ _ (JDict d) w
             (pushing params st) Hq).
  destruct (upsert_zero_contact_created sc default_client d
              (first_name_of params) (last_name_of params) (phone_of params)
              data w (queried default_client (phone_of params) w
                        (pushing params st)) Hz Hc)
    as (lead_result & st2 & -> & Hx & _).
  do 2 eexists. split; [reflexivity|].
  simpl exchanges in Hx.
  rewrite (issued_app st (add_log st2 _) _
             ltac:(simpl exchanges; rewrite Hx, <- app_assoc; reflexivity)).
  apply counts_query_contact_lead.
Qed.

(** C10. On the zero-match path, when the contact creation returns a
    result whose status is not ["success"], [get_contact] returns that
    very result and no lead-create request is sent. *)
Theorem contact_failure_skips_lead (sc : json -> string)
    (first_name last_name phone : json) (w : world) (st : state)
    (d : Dict.t json) (contact_result : json) :
  let total := Dict.get_default "total" (JNum 0) d in
  let st1 := add_log (queried default_client phone w st) [found total phone] in
  answer_of (http w (exchanges st) (query_request default_client phone))
  = Some (JDict d) ->
  eq_zero total = true ->
  fst (create_contact sc default_client first_name last_name phone w st1)
  = Returned contact_result ->
  eq_str (status_of contact_result) "success" = false ->
  get_contact sc default_client first_name last_name phone w st
  = (Returned contact_result,
     snd (create_contact sc default_client first_name last_name phone w st1))
  /\ lead_creates
       (issued st
          (snd (get_contact sc default_client first_name last_name phone w st)))
     = 0
  /\ contact_creates
       (issued st
          (snd (get_contact sc default_client first_name last_name phone w st)))
     = 1.
Proof.
  intros total st1 Hq Hz Hres Hstatus.
  rewrite (get_contact_answered sc default_client _ _ _ (JDict d) w st Hq).
  destruct (answer_of (http w (exchanges (queried default_client phone w st))
                         (contact_request sc default_client first_name
                            last_name phone))) as [data|] eqn:Hc.
  - exfalso.
    destruct (create_contact_run sc default_client first_name last_name
                phone w st1) as (res & st2 & Hrun & _ & _ & Hr).
    simpl exchanges in Hr, Hc. rewrite Hc in Hr. subst res.
    rewrite Hrun in Hres. simpl in Hres. injection Hres as <-.
    discriminate.
  - destruct (upsert_zero_contact_failed sc default_client d first_name
                last_name phone w (queried default_client phone w st) Hz Hc)
      as (e & st2 & Hup & Hrun & Hx).
    fold total in Hrun. fold st1 in Hrun.
    rewrite Hrun in Hres |- *. simpl in Hres. injection Hres as <-.
    rewrite Hup. simpl snd. simpl exchanges in Hx.
    rewrite (issued_app st st2 _
               ltac:(rewrite Hx, <- app_assoc; reflexivity)).
    split; [reflexivity|]. split; apply counts_query_contact.
Qed.

(** ** The timestamp of a lead name *)

Lemma digit_char_inj (a b : nat) :
  ascii_of_nat (48 + a mod 10) = ascii_of_nat (48 + b mod 10) ->
  a mod 10 = b mod 10.
Proof.
  intros H. apply (f_equal nat_of_ascii) in H.
  pose proof (Nat.mod_upper_bound a 10 ltac:(lia)).
  pose proof (Nat.mod_upper_bound b 10 ltac:(lia)).
  rewrite !nat_ascii_embedding in H by lia. lia.
Qed.

Lemma two_digits_inj (a b : nat) (s s' : string) :
  a < 100 -> b < 100 ->
  two_digits a ++ s = two_digits b ++ s' -> a = b /\ s = s'.
Proof.
  intros Ha Hb H. unfold two_digits, digit in H. cbn [append] in H.
  injection H as H1 H0 Hs.
  apply digit_char_inj in H1, H0.
  split; [|exact Hs].
  pose proof (Nat.div_mod_eq a 10). pose proof (Nat.div_mod_eq b 10).
  assert (a / 10 < 10) by (apply Nat.Div0.div_lt_upper_bound; lia).
  assert (b / 10 < 10) by (apply Nat.Div0.div_lt_upper_bound; lia).
  rewrite (Nat.mod_small (a / 10)) in H1 by lia.
  rewrite (Nat.mod_small (b / 10)) in H1 by lia.
  lia.
Qed.

Lemma str_app_assoc (a b c : string) : (a ++ b) ++ c = a ++ b ++ c.
Proof. induction a as [|x a IH]; simpl; [reflexivity|now rewrite IH]. Qed.

Lemma str_app_nil_r (a : string) : a ++ "" = a.
Proof. induction a as [|x a IH]; simpl; [reflexivity|now rewrite IH]. Qed.

Lemma four_digits_inj (a b : nat) (s s' : string) :
  a < 100 * 100 -> b < 100 * 100 ->
  four_digits a ++ s = four_digits b ++ s' -> a = b /\ s = s'.
Proof.
  intros Ha Hb H. unfold four_digits in H.
  rewrite !str_app_assoc in H.
  assert (a / 100 < 100) by (apply Nat.Div0.div_lt_upper_bound; lia).
  assert (b / 100 < 100) by (apply Nat.Div0.div_lt_upper_bound; lia).
  pose proof (Nat.mod_upper_bound a 100 ltac:(lia)).
  pose proof (Nat.mod_upper_bound b 100 ltac:(lia)).
  apply two_digits_inj in H; [|lia|lia]. destruct H as [Hhi H].
  apply two_digits_inj in H; [|lia|lia]. destruct H as [Hlo H].
  split; [|exact H].
  pose proof (Nat.div_mod_eq a 100). pose proof (Nat.div_mod_eq b 100). lia.
Qed.

Lemma strftime_same_second (t1 t2 : datetime) :
  same_second t1 t2 -> strftime t1 = strftime t2.
Proof.
  unfold same_second, strftime.
  intros (-> & -> & -> & -> & -> & ->). reflexivity.
Qed.

Lemma strftime_inj (t1 t2 : datetime) :
  valid_datetime t1 -> valid_datetime t2 ->
  strftime t1 = strftime t2 -> same_second t1 t2.
Proof.
  unfold valid_datetime, strftime, same_second.
  intros V1 V2 H.
  apply four_digits_inj in H; [|lia|lia]. destruct H as [Hy H].
  apply two_digits_inj in H; [|lia|lia]. destruct H as [Hm H].
  apply two_digits_inj in H; [|lia|lia]. destruct H as [Hd H].
  apply two_digits_inj in H; [|lia|lia]. destruct H as [Hh H].
  apply two_digits_inj in H; [|lia|lia]. destruct H as [Hmi H].
  rewrite <- (str_app_nil_r (two_digits (second t1))) in H.
  rewrite <- (str_app_nil_r (two_digits (second t2))) in H.
  apply two_digits_inj in H; [|lia|lia]. destruct H as [Hs _].
  repeat split; assumption.
Qed.

Lemma append_inj_l (p s s' : string) : p ++ s = p ++ s' -> s = s'.
Proof.
  induction p as [|c p IH]; simpl; intros H; [exact H|].
  injection H as H. now apply IH.
Qed.

Lemma lead_name_of_payload (sc : json -> string)
    (first_name last_name phone : json) (t : datetime) :
  lead_name sc (lead_payload first_name last_name phone) t
  = "Lead - " ++ strftime t.
Proof. reflexivity. Qed.

(** C2, as the code has it.  The name sent with a lead is ["Lead - "]
    followed by the reading of the clock formatted to the second.  Two
    lead creations for the same person send equal names when the two
    readings fall in the same second, and distinct names when they do
    not. *)
Theorem lead_names_follow_clock (sc : json -> string)
    (first_name last_name phone : json) (w : world) (st : state) :
  let t1 := now w (clock_reads st) in
  let t2 := now w (S (clock_reads st)) in
  lead_names
    (issued st (snd (two_leads sc first_name last_name phone w st)))
  = [JStr ("Lead - " ++ strftime t1); JStr ("Lead - " ++ strftime t2)]
  /\ (same_second t1 t2 ->
      "Lead - " ++ strftime t1 = "Lead - " ++ strftime t2)
  /\ (valid_datetime t1 -> valid_datetime t2 -> ~ same_second t1 t2 ->
      "Lead - " ++ strftime t1 <> "Lead - " ++ strftime t2).
Proof.
  intros t1 t2. split; [|split].
  - unfold two_leads. rewrite bind_run.
    destruct (create_lead_run sc default_client
                (lead_payload first_name last_name phone) w st)
      as (r1 & st1 & -> & Hx1 & Hc1 & _).
    destruct (create_lead_run sc default_client
                (lead_payload first_name last_name phone) w st1)
      as (r2 & st2 & -> & Hx2 & _ & _).
    simpl snd. rewrite Hc1, Hx1, <- app_assoc in Hx2.
    rewrite (issued_app st st2 _ Hx2). reflexivity.
  - intros H. now rewrite (strftime_same_second t1 t2 H).
  - intros V1 V2 Hdiff Heq. apply Hdiff, strftime_inj; auto.
    now apply append_inj_l in Heq.
Qed.

Lemma lead_names_follow_clock_witness :
  "Lead - " ++ strftime (ticking 0) <> "Lead - " ++ strftime (ticking 1).
Proof.
  refine (proj2 (proj2 (lead_names_follow_clock no_containers
                          (JStr "Ann") (JStr "Lee") (JStr "+380501234567")
                          (crm_with [] ticking) initial)) _ _ _).
  - unfold valid_datetime; cbn -[Nat.mul]; lia.
  - unfold valid_datetime; cbn -[Nat.mul]; lia.
  - unfold same_second; simpl. intros (_ & _ & _ & _ & _ & H). discriminate.
Defined.

(** The claim C2 as it is written fails within one second: two pushes for
    the same person, at two different readings of the clock that fall in
    the same second, send the same lead name. *)
Lemma same_second_same_lead_name :
  within_noon 0 <> within_noon 1
  /\ lead_names
       (issued initial
          (snd ((push_to_crm no_containers person ;;
                 push_to_crm no_containers person)
                  (crm_with [stored_contact] within_noon) initial)))
     = [JStr "Lead - 20240517120000"; JStr "Lead - 20240517120000"].
Proof. split; [discriminate|]. vm_compute. reflexivity. Qed.

(** The claim C1 as it is written fails: the contact query is answered
    with status 500, and the mapping returned has the top-level status
    ["pushed"], the error result being its [crm_result]. *)
Lemma push_to_crm_error_is_nested :
  http_failure (query_reply person crm_down initial)
  /\ fst (push_to_crm no_containers person crm_down initial)
     = Returned
         (JDict [("status", JStr "pushed");
                 ("crm_result",
                  JDict [("status", JStr "error");
                         ("message",
                          JStr "Wrong request, status code 500, reason: Unknown Error")])]).
Proof. split; [left; discriminate|]. vm_compute. reflexivity. Qed.

Lemma push_to_crm_no_match_witness :
  exists lead_result st',
    push_to_crm no_containers person (crm_with [] within_noon) initial
    = (Returned (pushed (JDict [("status", JStr "created");
                                ("contact",
                                 success_result "contact" stored_contact);
                                ("lead", lead_result)])), st')
    /\ contact_creates (issued initial st') = 1
    /\ lead_creates (issued initial st') = 1.
Proof.
  exact (push_to_crm_no_match no_containers person (crm_with [] within_noon)
           initial _ stored_contact eq_refl eq_refl eq_refl).
Defined.

(** The claim C3 as it is written fails when the contact cannot be
    created: the query reports a total of 0, one contact-create request
    is sent and refused, no lead-create request follows and the status of
    the workflow result is ["error"]. *)
Lemma push_to_crm_no_match_contact_refused :
  answer_of (query_reply person crm_refusing initial)
  = Some (JDict [("total", JNum 0); ("list", JList [])])
  /\ contact_creates
       (issued initial
          (snd (push_to_crm no_containers person crm_refusing initial))) = 1
  /\ lead_creates
       (issued initial
          (snd (push_to_crm no_containers person crm_refusing initial))) = 0
  /\ fst (push_to_crm no_containers person crm_refusing initial)
     = Returned
         (pushed
            (JDict [("status", JStr "error");
                    ("message",
                     JStr "Wrong request, status code 500, reason: Unknown Error")])).
Proof. vm_compute. repeat split. Qed.

Lemma contact_failure_skips_lead_witness :
  lead_creates
    (issued initial
       (snd (get_contact no_containers default_client (JStr "Ann")
               (JStr "Lee") (JStr "+380501234567") crm_refusing initial)))
  = 0.
Proof.
  exact (proj1 (proj2
    (contact_failure_skips_lead no_containers (JStr "Ann") (JStr "Lee")
       (JStr "+380501234567") crm_refusing initial
       [("total", JNum 0); ("list", JList [])] _
       eq_refl eq_refl eq_refl eq_refl))).
Defined.

(** * More on the flattener *)

Lemma assign_all_app {V} (ws ws' : list (string * V)) (d : Dict.t V) :
  assign_all (ws ++ ws')%list d = assign_all ws' (assign_all ws d).
Proof. unfold assign_all. apply fold_left_app. Qed.

Lemma parse_json_acc_writes (data : json) :
  forall parent_key result,
    parse_json_acc data parent_key result
    = assign_all (writes data parent_key) result.
Proof.
  induction data as [v|l IHl|d IHd] using json_induction;
    intros parent_key result.
  - reflexivity.
  - simpl. generalize 0%nat. revert result.
    induction IHl as [|x l Hx _ IH]; intros result index; [reflexivity|].
    rewrite assign_all_app, <- Hx. apply IH.
  - simpl. revert result.
    induction IHd as [|[k x] d Hx _ IH]; intros result; [reflexivity|].
    rewrite assign_all_app, <- Hx. apply IH.
Qed.

Lemma writes_leaves (data : json) :
  forall parent_key, map snd (writes data parent_key) = leaves data.
Proof.
  induction data as [v|l IHl|d IHd] using json_induction; intros parent_key.
  - reflexivity.
  - simpl. generalize 0%nat.
    induction IHl as [|x l Hx _ IH]; intros index; [reflexivity|].
    rewrite map_app, Hx, IH. reflexivity.
  - simpl.
    induction IHd as [|[k x] d Hx _ IH]; [reflexivity|].
    rewrite map_app, Hx, IH. reflexivity.
Qed.

Lemma get_set_same {V} (k : string) (v : V) (d : Dict.t V) :
  Dict.get k (Dict.set k v d) = Some v.
Proof.
  induction d as [|[k' v'] d IH]; simpl.
  - now rewrite String.eqb_refl.
  - destruct (String.eqb_spec k k') as [->|Hne]; simpl.
    + now rewrite String.eqb_refl.
    + destruct (String.eqb_spec k k'); [contradiction|exact IH].
Qed.

Lemma get_set_other {V} (k k' : string) (v : V) (d : Dict.t V) :
  k' <> k -> Dict.get k' (Dict.set k v d) = Dict.get k' d.
Proof.
  intros Hne. induction d as [|[k0 v0] d IH]; simpl.
  - destruct (String.eqb_spec k' k); [contradiction|reflexivity].
  - destruct (String.eqb_spec k k0) as [->|Hk]; simpl.
    + destruct (String.eqb_spec k' k0); [contradiction|reflexivity].
    + destruct (String.eqb_spec k' k0); [reflexivity|exact IH].
Qed.

Lemma set_length {V} (k : string) (v : V) (d : Dict.t V) :
  List.length (Dict.set k v d) <= S (List.length d).
Proof.
  induction d as [|[k' v'] d IH]; simpl; [lia|].
  destruct (String.eqb k k'); simpl; lia.
Qed.

Lemma set_in {V} (k k0 : string) (v v0 : V) (d : Dict.t V) :
  In (k, v) (Dict.set k0 v0 d) -> (k, v) = (k0, v0) \/ In (k, v) d.
Proof.
  induction d as [|[k' v'] d IH]; simpl.
  - intros [H|[]]; left; now symmetry.
  - destruct (String.eqb_spec k0 k') as [->|Hne]; simpl.
    + intros [H|H]; [left; now symmetry|right; now right].
    + intros [H|H]; [right; now left|].
      destruct (IH H) as [H'|H']; [now left|right; now right].
Qed.

Lemma assign_all_wf {V} (ws : list (string * V)) (d : Dict.t V) :
  Dict.wf d -> Dict.wf (assign_all ws d).
Proof.
  revert d. induction ws as [|[k v] ws IH]; intros d Hwf; [exact Hwf|].
  simpl. apply IH. now apply set_wf.
Qed.

Lemma assign_all_length {V} (ws : list (string * V)) (d : Dict.t V) :
  List.length (assign_all ws d) <= List.length d + List.length ws.
Proof.
  revert d. induction ws as [|[k v] ws IH]; intros d; simpl; [lia|].
  specialize (IH (Dict.set k v d)). pose proof (set_length k v d) as H.
  eapply Nat.le_trans; [exact IH|]. rewrite Nat.add_succ_r.
  apply (Nat.add_le_mono_r _ _ (List.length ws)) in H. exact H.
Qed.

Lemma assign_all_in {V} (ws : list (string * V)) (d : Dict.t V)
    (k : string) (v : V) :
  In (k, v) (assign_all ws d) -> In (k, v) d \/ In (k, v) ws.
Proof.
  revert d. induction ws as [|[k0 v0] ws IH]; intros d; simpl; [now left|].
  intros H. destruct (IH _ H) as [H'|H']; [|right; now right].
  destruct (set_in _ _ _ _ _ H') as [E|E]; [right; left; now symmetry|now left].
Qed.

(** The value found at a key after a run of assignments is the one of the
    last assignment to that key, or the earlier value when there is
    none. *)
Lemma get_assign_all {V} (ws : list (string * V)) (d : Dict.t V)
    (k : string) :
  Dict.get k (assign_all ws d)
  = match Dict.get k (rev ws) with
    | Some v => Some v
    | None => Dict.get k d
    end.
Proof.
  revert d. induction ws as [|[k0 v0] ws IH]; intros d; [reflexivity|].
  simpl. change (fold_left _ ws (Dict.set k0 v0 d))
    with (assign_all ws (Dict.set k0 v0 d)).
  rewrite IH.
  assert (Hrev : Dict.get k (rev ws ++ [(k0, v0)])%list
                 = match Dict.get k (rev ws) with
                   | Some v => Some v
                   | None => if String.eqb k k0 then Some v0 else None
                   end).
  { clear IH. induction (rev ws) as [|[k1 v1] l IHl]; simpl; [reflexivity|].
    destruct (String.eqb k k1); [reflexivity|exact IHl]. }
  rewrite Hrev. destruct (Dict.get k (rev ws)); [reflexivity|].
  destruct (String.eqb_spec k k0) as [->|Hne].
  - apply get_set_same.
  - now apply get_set_other.
Qed.

(** X2. Flattening is idempotent on its own results: flattening the
    result of a flattening, seen as a payload, gives that result
    again. *)
Theorem parse_json_idempotent (data : json) :
  parse_json (flat (parse_json data)) = parse_json data.
Proof.
  unfold parse_json at 1. rewrite parse_flat_acc, fold_set_fresh;
    [reflexivity|].
  simpl. unfold parse_json. rewrite parse_json_acc_writes.
  apply assign_all_wf. constructor.
Qed.

(** X3. The result of [parse_json] has at most one entry per leaf of
    the payload, and every value in it is a leaf of the payload. *)
Theorem parse_json_entries_are_leaves (data : json) :
  List.length (parse_json data) <= List.length (leaves data)
  /\ forall k v, In (k, v) (parse_json data) -> In v (leaves data).
Proof.
  unfold parse_json. rewrite parse_json_acc_writes. split.
  - pose proof (assign_all_length (writes data "") []) as H.
    rewrite <- (writes_leaves data ""), length_map. exact H.
  - intros k v H. apply assign_all_in in H. destruct H as [[]|H].
    rewrite <- (writes_leaves data ""). apply in_map_iff.
    now exists (k, v).
Qed.

(** X4. The value that [parse_json] leaves at a key is the one of the
    last leaf written under that key; a key that no leaf is written
    under is absent. *)
Theorem parse_json_last_write_wins (data : json) (k : string) :
  Dict.get k (parse_json data) = Dict.get k (rev (writes data "")).
Proof.
  unfold parse_json. rewrite parse_json_acc_writes, get_assign_all.
  now destruct (Dict.get k (rev (writes data ""))).
Qed.

Lemma starts_with_refl_app (p s : string) : starts_with p (p ++ s) = true.
Proof.
  induction p as [|a p IH]; simpl; [reflexivity|].
  now rewrite Ascii.eqb_refl, IH.
Qed.

Lemma starts_with_app (p q s : string) :
  starts_with (p ++ q) s = true -> starts_with p s = true.
Proof.
  revert s. induction p as [|a p IH]; intros s; simpl; [reflexivity|].
  destruct s as [|b s]; [discriminate|].
  destruct (Ascii.eqb a b); simpl; [apply IH|discriminate].
Qed.

Lemma dict_key_nonempty (parent_key key : string) :
  parent_key <> "" -> dict_key parent_key key = parent_key ++ "." ++ key.
Proof.
  intros H. unfold dict_key.
  destruct (String.eqb_spec parent_key ""); [contradiction|reflexivity].
Qed.

Lemma starts_with_dict_key (parent_key key s : string) :
  starts_with (dict_key parent_key key) s = true ->
  starts_with parent_key s = true.
Proof.
  unfold dict_key. destruct (String.eqb_spec parent_key "") as [->|Hne].
  - reflexivity.
  - apply starts_with_app.
Qed.

Lemma writes_start_with_path (data : json) :
  forall parent_key,
    Forall (fun kv => starts_with parent_key (fst kv) = true)
      (writes data parent_key).
Proof.
  induction data as [v|l IHl|d IHd] using json_induction; intros parent_key.
  - constructor; [|constructor]. simpl.
    rewrite <- (str_app_nil_r parent_key) at 2. apply starts_with_refl_app.
  - simpl. generalize 0%nat.
    induction IHl as [|x l Hx _ IH]; intros index; [constructor|].
    apply Forall_app. split; [|apply IH].
    eapply Forall_impl; [|apply Hx]. intros kv. apply starts_with_app.
  - simpl.
    induction IHd as [|[k x] d Hx _ IH]; [constructor|].
    apply Forall_app. split; [|exact IH].
    eapply Forall_impl; [|apply Hx]. intros kv. apply starts_with_dict_key.
Qed.

Lemma get_none_of_keys {V} (k : string) (d : Dict.t V) :
  Forall (fun kv => fst kv <> k) d -> Dict.get k d = None.
Proof.
  induction 1 as [|[k' v'] d Hk _ IH]; simpl; [reflexivity|].
  destruct (String.eqb_spec k k') as [->|_]; [now destruct Hk|exact IH].
Qed.

Lemma get_app {V} (k : string) (a b : Dict.t V) :
  Dict.get k (a ++ b)%list
  = match Dict.get k a with Some v => Some v | None => Dict.get k b end.
Proof.
  induction a as [|[k' v'] a IH]; simpl; [reflexivity|].
  destruct (String.eqb k k'); [reflexivity|exact IH].
Qed.

Lemma get_outside_path (data : json) (parent_key key : string)
    (result : Dict.t scalar) :
  starts_with parent_key key = false ->
  Dict.get key (parse_json_acc data parent_key result) = Dict.get key result.
Proof.
  intros Hk. rewrite parse_json_acc_writes, get_assign_all.
  rewrite get_none_of_keys; [reflexivity|].
  apply Forall_rev.
  eapply Forall_impl; [|apply writes_start_with_path].
  intros kv H E. simpl in H. rewrite E in H. congruence.
Qed.

(** X5. Flattening the payload found at a path only writes keys that
    start with that path: a key that does not start with it keeps the
    value, or the absence, it had before. *)
Theorem parse_json_writes_under_path (data : json)
    (parent_key key : string) (result : Dict.t scalar) :
  starts_with parent_key key = false ->
  Dict.get key (parse_json_acc data parent_key result) = Dict.get key result.
Proof. apply get_outside_path. Qed.

Lemma parse_json_writes_under_path_witness :
  Dict.get "crm_result.lead.lead.id"
    (parse_json_acc (JDict [("id", JStr "C1")]) "crm_result.contact"
       [("crm_result.lead.lead.id", SStr "L1")])
  = Some (SStr "L1").
Proof.
  exact (parse_json_writes_under_path (JDict [("id", JStr "C1")])
           "crm_result.contact" "crm_result.lead.lead.id"
           [("crm_result.lead.lead.id", SStr "L1")] eq_refl).
Defined.

(** X6. Two leaves can meet under one key, and then only the later one
    is kept: an entry [k1.k2] and an entry [k2] inside the object at [k1]
    are both written to the key [k1.k2]. *)
Theorem parse_json_key_collision (k1 k2 : string) (v1 v2 : scalar) :
  k1 <> "" ->
  parse_json (JDict [(k1 ++ "." ++ k2, JScalar v1);
                     (k1, JDict [(k2, JScalar v2)])])
  = [(k1 ++ "." ++ k2, v2)].
Proof.
  intros Hne. unfold parse_json. cbn [parse_json_acc].
  rewrite !dict_key_top, (dict_key_nonempty k1 k2 Hne).
  cbn [Dict.set]. now rewrite String.eqb_refl.
Qed.

Lemma parse_json_key_collision_witness :
  parse_json (JDict [("a.b", JNum 1); ("a", JDict [("b", JNum 2)])])
  = [("a.b", SNum 2)].
Proof.
  exact (parse_json_key_collision "a" "b" (SNum 1) (SNum 2)
           ltac:(discriminate)).
Defined.

Lemma has_char_app (c : ascii) (a b : string) :
  has_char c (a ++ String c b) = true.
Proof.
  induction a as [|x a IH]; simpl.
  - now rewrite Ascii.eqb_refl.
  - rewrite IH. apply orb_true_r.
Qed.

Lemma under_refl (parent_key : string) : under parent_key parent_key.
Proof. now left. Qed.

Lemma under_dict_key (parent_key key k : string) :
  parent_key <> "" ->
  under (dict_key parent_key key) k -> under parent_key k.
Proof.
  intros Hne. rewrite (dict_key_nonempty _ _ Hne).
  intros [->|(rest & [->| ->])]; right.
  - exists key. now left.
  - exists (key ++ "." ++ rest). left. now rewrite !str_app_assoc.
  - exists (key ++ "[" ++ rest). left. now rewrite !str_app_assoc.
Qed.

Lemma under_list_key (parent_key k : string) (index : nat) :
  under (list_key parent_key index) k -> under parent_key k.
Proof.
  unfold list_key. intros [->|(rest & [->| ->])]; right.
  - exists (str_of_nat index ++ "]"). now right.
  - exists (str_of_nat index ++ "]" ++ "." ++ rest). right.
    now rewrite !str_app_assoc.
  - exists (str_of_nat index ++ "]" ++ "[" ++ rest). right.
    now rewrite !str_app_assoc.
Qed.

Lemma app_nonempty_l (a b : string) : a <> "" -> a ++ b <> "".
Proof. destruct a; [congruence|discriminate]. Qed.

(** Below a path that is not empty, every key written is the path or
    continues it with [.] or [[]. *)
Lemma writes_under_path (data : json) :
  forall parent_key,
    parent_key <> "" ->
    Forall (fun kv => under parent_key (fst kv)) (writes data parent_key).
Proof.
  induction data as [v|l IHl|d IHd] using json_induction;
    intros parent_key Hne.
  - constructor; [apply under_refl|constructor].
  - simpl. generalize 0%nat.
    induction IHl as [|x l Hx _ IH]; intros index; [constructor|].
    apply Forall_app. split; [|apply IH].
    eapply Forall_impl; [|apply Hx; unfold list_key; now apply app_nonempty_l].
    intros kv. apply under_list_key.
  - simpl.
    induction IHd as [|[k x] d Hx _ IH]; [constructor|].
    apply Forall_app. split; [|exact IH].
    eapply Forall_impl;
      [|apply Hx; rewrite (dict_key_nonempty _ _ Hne);
        now apply app_nonempty_l].
    intros kv. now apply under_dict_key.
Qed.

(** The paths of two different plain keys of one object do not meet. *)
Lemma under_sibling (parent_key key key' : string) :
  plain_key key = true ->
  under (parent_key ++ "." ++ key') (parent_key ++ "." ++ key) ->
  key' = key.
Proof.
  unfold plain_key. intros Hplain [H|(rest & [H|H])].
  - apply append_inj_l in H. apply append_inj_l in H. now symmetry.
  - rewrite !str_app_assoc in H. do 2 apply append_inj_l in H.
    rewrite H in Hplain. change ("." ++ rest) with (String "."%char rest) in Hplain.
    now rewrite has_char_app in Hplain.
  - rewrite !str_app_assoc in H. do 2 apply append_inj_l in H.
    rewrite H in Hplain. change ("[" ++ rest) with (String "["%char rest) in Hplain.
    rewrite (has_char_app "["%char) in Hplain.
    now rewrite andb_false_r in Hplain.
Qed.

Lemma get_field (d : Dict.t json) (parent_key key : string)
    (v : scalar) (result : Dict.t scalar) :
  parent_key <> "" ->
  Dict.wf d ->
  plain_key key = true ->
  Dict.get key d = Some (JScalar v) ->
  Dict.get (parent_key ++ "." ++ key)
    (parse_json_acc (JDict d) parent_key result)
  = Some v.
Proof.
  intros Hne Hwf Hplain Hget.
  rewrite parse_json_acc_writes, get_assign_all.
  assert (H : Dict.get (parent_key ++ "." ++ key)
                (rev (writes (JDict d) parent_key)) = Some v);
    [|now rewrite H].
  clear result. simpl. unfold Dict.wf in Hwf.
  induction d as [|[k x] d IH]; [discriminate|].
  simpl in Hget, Hwf. rewrite rev_app_distr, get_app.
  apply NoDup_cons_iff in Hwf. destruct Hwf as [Hout Hwf].
  destruct (String.eqb_spec key k) as [->|Hk].
  - injection Hget as ->.
    rewrite get_none_of_keys.
    + simpl. rewrite (dict_key_nonempty _ _ Hne). now rewrite String.eqb_refl.
    + apply Forall_rev. clear IH.
      induction d as [|[k' x'] d IHd]; [constructor|].
      apply Forall_app. split.
      * eapply Forall_impl;
          [|apply (writes_under_path x' (dict_key parent_key k'));
            rewrite (dict_key_nonempty _ _ Hne); now apply app_nonempty_l].
        intros kv Hu E. simpl in Hu. rewrite E in Hu.
        rewrite (dict_key_nonempty _ _ Hne) in Hu.
        apply under_sibling in Hu; [|exact Hplain].
        apply Hout. left. exact Hu.
      * apply IHd.
        -- intros Hin. apply Hout. now right.
        -- simpl in Hwf. apply NoDup_cons_iff in Hwf. tauto.
  - now rewrite (IH Hwf Hget).
Qed.

(** X7. Inside an object found at a path that is not empty, the leaf
    under a plain key (one without [.] and [[]) is found in the result
    under the path, a dot and the key, whatever the other entries of the
    object hold and whatever was in the result before. *)
Theorem parse_json_field (d : Dict.t json) (parent_key key : string)
    (v : scalar) (result : Dict.t scalar) :
  parent_key <> "" ->
  Dict.wf d ->
  plain_key key = true ->
  Dict.get key d = Some (JScalar v) ->
  Dict.get (parent_key ++ "." ++ key)
    (parse_json_acc (JDict d) parent_key result)
  = Some v.
Proof. apply get_field. Qed.

Lemma parse_json_field_witness :
  Dict.get "crm_result.contact.id"
    (parse_json_acc
       (JDict [("name", JStr "Ann Lee"); ("id", JStr "C1");
               ("emails", JList [JStr "ann@example.org"])])
       "crm_result.contact" [])
  = Some (SStr "C1").
Proof.
  refine (parse_json_field
            [("name", JStr "Ann Lee"); ("id", JStr "C1");
             ("emails", JList [JStr "ann@example.org"])]
            "crm_result.contact" "id" (SStr "C1") [] _ _ eq_refl eq_refl).
  - discriminate.
  - unfold Dict.wf; simpl.
    repeat (constructor; [simpl; intuition discriminate|]). constructor.
Defined.

(** * More on the call gate *)

Lemma str_length_app (a b : string) :
  String.length (a ++ b) = String.length a + String.length b.
Proof. induction a as [|c a IH]; simpl; [reflexivity|now rewrite IH]. Qed.

Lemma substring_all (m : nat) (s : string) :
  String.length s <= m -> substring 0 m s = s.
Proof.
  revert m. induction s as [|c s IH]; intros m H.
  - now destruct m.
  - destruct m as [|m]; simpl in *; [lia|]. rewrite IH; [reflexivity|lia].
Qed.

Lemma substring_suffix (s : string) :
  forall n m,
    n <= String.length s -> String.length s <= n + m ->
    exists p, s = p ++ substring n m s /\ String.length p = n.
Proof.
  induction s as [|c s IH]; intros n m Hn Hm.
  - simpl in Hn. assert (n = 0) as -> by lia. exists "".
    split; [now destruct m|reflexivity].
  - destruct n as [|n].
    + exists "". split; [|reflexivity].
      cbn [append]. now rewrite substring_all.
    + simpl in Hn, Hm. destruct (IH n m) as (p & Hp & Hlen); [lia|lia|].
      exists (String c p). simpl. split; [now rewrite <- Hp|now rewrite Hlen].
Qed.

(** X8. [number[-9:]] is a suffix of the number, and it has nine
    characters, or all of them when the number has fewer. *)
Theorem last_chars_is_suffix (k : nat) (s : string) :
  (exists p, s = p ++ last_chars k s)
  /\ String.length (last_chars k s) = Nat.min k (String.length s).
Proof.
  unfold last_chars.
  destruct (substring_suffix s (String.length s - k) k) as (p & Hp & Hlen);
    [lia|lia|].
  split; [now exists p|].
  apply (f_equal String.length) in Hp. rewrite str_length_app, Hlen in Hp.
  lia.
Qed.

(** X9. For a number that is a string, [make_call] never raises and
    makes exactly one exchange, the call request for the last nine
    characters.  It returns the decoded answer when the reply has a
    status outside 400..599 and a JSON body, and writes nothing then;
    for any other reply it returns [None] after printing the error. *)
Theorem make_call_outcome (s : string) (w : world) (st : state) :
  let rq := call_request (last_chars 9 s) in
  let rp := http w (exchanges st) rq in
  exists st',
    make_call (SStr s) w st
    = (Returned match call_answer rp with Some j => j | None => JNone end,
       st')
    /\ exchanges st' = (exchanges st ++ [(rq, rp)])%list
    /\ clock_reads st' = clock_reads st
    /\ match call_answer rp with
       | Some _ => log st' = log st
       | None => exists e, log st' = (log st ++ [(STDOUT, MsgRequestError e)])%list
       end.
Proof.
  intros rq rp.
  unfold make_call, slice_last9, bind, try_except, send, ret.
  fold rq. fold rp. unfold call_answer.
  destruct rp as [err|r]; simpl.
  - eexists. repeat split. simpl. eauto.
  - unfold raise_for_status.
    destruct ((400 <=? status_code r)%Z && (status_code r <? 500)%Z) eqn:E4;
      simpl.
    + assert (E : ((400 <=? status_code r) && (status_code r <? 600))%Z = true)
        by lia.
      rewrite E. eexists. repeat split. simpl. eauto.
    + destruct ((500 <=? status_code r)%Z && (status_code r <? 600)%Z) eqn:E5;
        simpl.
      * assert (E : ((400 <=? status_code r) && (status_code r <? 600))%Z
                    = true) by lia.
        rewrite E. eexists. repeat split. simpl. eauto.
      * assert (E : ((400 <=? status_code r) && (status_code r <? 600))%Z
                    = false) by lia.
        rewrite E. unfold response_json.
        destruct (content r); simpl; eexists; repeat split; simpl; eauto.
Qed.

(** X10. For a number that is not a string, [make_call] raises a
    [TypeError] before anything is sent or printed. *)
Theorem make_call_rejects_non_string (number : scalar) (w : world)
    (st : state) :
  (forall s, number <> SStr s) ->
  make_call number w st
  = (Raised (Exn TypeError ("'" ++ type_name (JScalar number)
                            ++ "' object is not subscriptable")), st).
Proof.
  intros H. unfold make_call, slice_last9, bind, raise.
  destruct number; try reflexivity. now destruct (H s).
Qed.

Lemma make_call_rejects_non_string_witness :
  make_call (SNum 380501234567) telephony_idle initial
  = (Raised (Exn TypeError "'int' object is not subscriptable"), initial).
Proof.
  exact (make_call_rejects_non_string (SNum 380501234567) telephony_idle
           initial ltac:(discriminate)).
Defined.

Lemma make_call_footprint (number : scalar) (w : world) (st : state) :
  exchanges (snd (make_call number w st)) = exchanges st
  \/ exists n r,
      exchanges (snd (make_call number w st))
      = (exchanges st ++ [(call_request n, r)])%list.
Proof.
  destruct number as [| | |s];
    try (left; reflexivity).
  right. destruct (make_call_string s w st) as (res & st' & -> & Hx).
  eauto.
Qed.

(** X11. Whatever the event and the replies, [start_call] talks to the
    telephony endpoint only, at most twice: it sends nothing, or the
    status query alone, or the status query followed by one call
    request. *)
Theorem start_call_footprint (params : Dict.t json) (w : world)
    (st : state) :
  let r := http w (exchanges st) status_request in
  issued st (snd (start_call params w st)) = []
  \/ issued st (snd (start_call params w st)) = [(status_request, r)]
  \/ exists n r',
      issued st (snd (start_call params w st))
      = [(status_request, r); (call_request n, r')].
Proof.
  intros r.
  destruct (truthy (resolve lead_id_keys (parsed_data_of params))
            && truthy (resolve number_id_keys (parsed_data_of params))
            && truthy (resolve created_by_id_keys (parsed_data_of params)))
    eqn:E.
  - rewrite (start_call_enough params w st E). unfold gate. rewrite bind_run.
    pose proof (observe_status_exchanges w (fields_logged params st)) as Hx.
    simpl exchanges in Hx. fold r in Hx.
    destruct (observe_status w (fields_logged params st)) as [[cs|e] st2].
    + simpl snd in Hx. destruct (is_idle cs).
      * rewrite bind_run.
        destruct (make_call_footprint (resolve number_id_keys
                                         (parsed_data_of params)) w st2)
          as [Hm|(n & r' & Hm)];
          destruct (make_call _ w st2) as [[res|e] st3]; simpl in Hm |- *.
        -- right; left. apply issued_app. now rewrite Hm.
        -- right; left. apply issued_app. now rewrite Hm.
        -- right; right. exists n, r'. apply issued_app.
           now rewrite Hm, Hx, <- app_assoc.
        -- right; right. exists n, r'. apply issued_app.
           now rewrite Hm, Hx, <- app_assoc.
      * rewrite emit_run. right; left. now apply issued_app.
    + right; left. now apply issued_app.
  - rewrite (start_call_not_enough params w st E). left.
    now apply issued_same_exchanges.
Qed.

(** X12. When the three fields are resolved and the status query is
    answered with a JSON document that is not an object, [start_call]
    raises an [AttributeError] to its caller; the status query is the
    only request sent. *)
Theorem start_call_status_not_an_object (params : Dict.t json) (w : world)
    (st : state) (r : response) (j : json) :
  truthy (resolve lead_id_keys (parsed_data_of params)) = true ->
  truthy (resolve number_id_keys (parsed_data_of params)) = true ->
  truthy (resolve created_by_id_keys (parsed_data_of params)) = true ->
  http w (exchanges st) status_request = Reply r ->
  content r = BodyJson j ->
  (forall d, j <> JDict d) ->
  fst (start_call params w st)
  = Raised (Exn AttributeError
              ("'" ++ type_name j ++ "' object has no attribute 'get'"))
  /\ issued st (snd (start_call params w st)) = [(status_request, Reply r)].
Proof.
  intros Hl Hn Hc Hr Hj Hnd.
  rewrite (start_call_enough params w st (truthy_all _ _ _ Hl Hn Hc)).
  unfold gate, observe_status, query_status, status_try, try_except.
  rewrite !bind_run. unfold send. simpl exchanges. rewrite Hr.
  unfold response_json. rewrite Hj. cbn [ret].
  rewrite bind_run.
  destruct j as [v|l|d]; [| |now destruct (Hnd d)]; cbn [method_get raise];
    (split; [reflexivity|]); apply issued_app; reflexivity.
Qed.

Lemma start_call_status_not_an_object_witness :
  fst (start_call event_string_phone
         (World (fun _ _ => ok_json (JList [JStr "idle"])) (fun _ => noon))
         initial)
  = Raised (Exn AttributeError "'list' object has no attribute 'get'").
Proof.
  exact (proj1 (start_call_status_not_an_object event_string_phone
                  (World (fun _ _ => ok_json (JList [JStr "idle"]))
                     (fun _ => noon))
                  initial _ (JList [JStr "idle"])
                  eq_refl eq_refl eq_refl eq_refl eq_refl
                  ltac:(discriminate))).
Defined.

(** X13. When the three fields are resolved, the number is a string
    and the status query is answered with a JSON object that has no
    ["status"] entry, the status is taken to be ["idle"]: exactly one
    call request is sent, for the last nine characters of the number. *)
Theorem start_call_status_entry_missing (params : Dict.t json) (w : world)
    (st : state) (r : response) (d : Dict.t json) (number : string) :
  truthy (resolve lead_id_keys (parsed_data_of params)) = true ->
  resolve number_id_keys (parsed_data_of params) = SStr number ->
  number <> "" ->
  truthy (resolve created_by_id_keys (parsed_data_of params)) = true ->
  http w (exchanges st) status_request = Reply r ->
  content r = BodyJson (JDict d) ->
  Dict.get "status" d = None ->
  placements (issued st (snd (start_call params w st)))
  = [JStr (last_chars 9 number)].
Proof.
  intros Hl Hn Hne Hc Hr Hj Hd.
  rewrite start_call_enough
    by (apply truthy_all; auto; rewrite Hn; simpl;
        now destruct (String.eqb_spec number "")).
  rewrite Hn. unfold gate, observe_status, query_status, status_try,
    try_except.
  rewrite !bind_run. unfold send. simpl exchanges. rewrite Hr.
  unfold response_json. rewrite Hj. cbn [ret]. rewrite bind_run.
  cbn [method_get ret]. unfold Dict.get_default. rewrite Hd.
  rewrite bind_run, emit_run. cbn [ret is_idle JStr String.eqb Ascii.eqb
                                     Bool.eqb andb].
  rewrite bind_run.
  match goal with
  | |- context [make_call (SStr number) w ?s] =>
      destruct (make_call_string number w s) as (res & st3 & -> & Hx3)
  end.
  simpl snd. simpl exchanges in Hx3.
  rewrite (issued_app st st3 _ ltac:(rewrite Hx3, <- app_assoc; reflexivity)).
  apply placements_status_call.
Qed.

Lemma start_call_status_entry_missing_witness :
  placements
    (issued initial
       (snd (start_call event_string_phone
               (World (fun _ _ => ok_json (JDict [("state", JStr "busy")]))
                  (fun _ => noon))
               initial)))
  = [JStr "501234567"].
Proof.
  exact (start_call_status_entry_missing event_string_phone
           (World (fun _ _ => ok_json (JDict [("state", JStr "busy")]))
              (fun _ => noon))
           initial _ [("state", JStr "busy")] "+380501234567"
           eq_refl eq_refl ltac:(discriminate) eq_refl eq_refl eq_refl
           eq_refl).
Defined.

(** * More on the CRM client *)

Lemma render_part_deep (depth : nat) (x : path_key) :
  render_part (S depth) x = render_part 1 x.
Proof. destruct x; reflexivity. Qed.

Lemma render_key_fold (parents : list path_key) :
  forall depth out,
    fold_left
      (fun acc x => (S (fst acc), snd acc ++ render_part (fst acc) x))
      parents (S depth, out)
    = (List.length parents + S depth,
       out ++ fold_right append "" (map (render_part 1) parents)).
Proof.
  induction parents as [|x ps IH]; intros depth out.
  - simpl. now rewrite str_app_nil_r.
  - cbn [fold_left fst snd]. rewrite IH, render_part_deep.
    f_equal; [simpl; lia|]. simpl. now rewrite str_app_assoc.
Qed.

(** X14. [_render_key] writes the first element of the path bare when
    it is a dictionary key and in brackets when it is a list index, and
    every later element in brackets; extending a path that is not empty
    appends one bracketed element. *)
Theorem render_key_shape (x : path_key) (parents : list path_key)
    (y : path_key) :
  _render_key (x :: parents)
  = render_part 0 x ++ fold_right append "" (map (render_part 1) parents)
  /\ _render_key ((x :: parents) ++ [y])
     = _render_key (x :: parents) ++ render_part 1 y.
Proof.
  assert (H : forall ps, _render_key (x :: ps)
                         = render_part 0 x
                           ++ fold_right append "" (map (render_part 1) ps)).
  { intros ps. unfold _render_key. cbn [fold_left fst snd].
    rewrite render_key_fold. reflexivity. }
  split; [apply H|].
  change ((x :: parents) ++ [y])%list with (x :: (parents ++ [y]))%list.
  rewrite !H, map_app, fold_right_app. simpl.
  rewrite str_app_nil_r, str_app_assoc. f_equal.
  induction (map (render_part 1) parents) as [|a l IH]; simpl.
  - reflexivity.
  - now rewrite IH, str_app_assoc.
Qed.

Lemma render_key_single (k : string) : _render_key [KName k] = k.
Proof. reflexivity. Qed.

Lemma encode_flat_acc (d : Dict.t scalar) (pairs : Dict.t string) :
  _encode (flat d) [] pairs
  = fold_left (fun r kv => Dict.set (fst kv) (str_of_scalar (snd kv)) r)
      d pairs.
Proof.
  revert pairs. induction d as [|[k v] d IH]; intros pairs.
  - reflexivity.
  - simpl. rewrite <- IH. reflexivity.
Qed.

Lemma fold_set_fresh_map {V W} (f : V -> W) (d : Dict.t V) (r : Dict.t W) :
  NoDup (Dict.keys r ++ Dict.keys d) ->
  fold_left (fun r kv => Dict.set (fst kv) (f (snd kv)) r) d r
  = (r ++ map (fun kv => (fst kv, f (snd kv))) d)%list.
Proof.
  revert r. induction d as [|[k v] d IH]; intros r Hnd.
  - simpl. now rewrite app_nil_r.
  - simpl. rewrite set_fresh.
    + rewrite IH; [now rewrite <- app_assoc|].
      unfold Dict.keys in *. rewrite map_app, <- app_assoc. exact Hnd.
    + simpl in Hnd. apply NoDup_remove_2 in Hnd. intros Hin. apply Hnd.
      apply in_or_app. now left.
Qed.

(** X15. For a flat dictionary (string keys, leaf values),
    [http_build_query] hands to [urlencode] the same keys in the same
    order, each with [str] of its value: no brackets are added at the top
    level. *)
Theorem query_pairs_flat (d : Dict.t scalar) :
  Dict.wf d ->
  query_pairs (flat d)
  = map (fun kv => (fst kv, str_of_scalar (snd kv))) d.
Proof.
  intros Hwf. unfold query_pairs. rewrite encode_flat_acc.
  now rewrite fold_set_fresh_map.
Qed.

Lemma query_pairs_flat_witness :
  query_pairs (flat [("limit", SNum 20); ("deleted", SBool false);
                     ("q", SNone)])
  = [("limit", "20"); ("deleted", "False"); ("q", "None")].
Proof.
  refine (query_pairs_flat
            [("limit", SNum 20); ("deleted", SBool false); ("q", SNone)] _).
  unfold Dict.wf; simpl.
  repeat (constructor; [simpl; intuition discriminate|]). constructor.
Defined.

(** The query that [get_contact] sends for a phone number that is a leaf
    has exactly the three pairs of the filter, the value being [str] of
    the number; a number that is absent from the parameters is looked up
    as the text [None]. *)
Example contact_query_pairs (phone_number : scalar) :
  query_pairs (JDict (contact_query (JScalar phone_number)))
  = [("where[0][type]", "equals");
     ("where[0][attribute]", "phoneNumber");
     ("where[0][value]", str_of_scalar phone_number)]
  /\ query_pairs (JDict (contact_query (phone_of [])))
     = [("where[0][type]", "equals");
        ("where[0][attribute]", "phoneNumber");
        ("where[0][value]", "None")].
Proof. split; reflexivity. Qed.

(** Nested values are spelled with brackets: the entry [k2] of an object
    under [k] gets the key [k[k2]], the items of a list under [k] get
    [k[0]], [k[1]], and the items of a list at the top get [[0]], [[1]]. *)
Example query_pairs_nested (k k2 : string) (v v' : scalar) :
  query_pairs (JDict [(k, JDict [(k2, JScalar v)])])
  = [(k ++ "[" ++ k2 ++ "]", str_of_scalar v)]
  /\ query_pairs (JDict [(k, JList [JScalar v; JScalar v'])])
     = [(k ++ "[0]", str_of_scalar v); (k ++ "[1]", str_of_scalar v')]
  /\ query_pairs (JList [JScalar v; JScalar v'])
     = [("[0]", str_of_scalar v); ("[1]", str_of_scalar v')].
Proof.
  split; [reflexivity|]. split; [|reflexivity].
  unfold query_pairs. cbn [_encode app].
  change (_render_key [KName k; KIndex 0]) with (k ++ "[0]").
  change (_render_key [KName k; KIndex 1]) with (k ++ "[1]").
  cbn [Dict.set].
  destruct (String.eqb_spec (k ++ "[1]") (k ++ "[0]")) as [E|_];
    [|reflexivity].
  apply append_inj_l in E. discriminate.
Qed.

(** X16. [EspoAPI.request] makes exactly one exchange whatever the
    reply, and it returns a response only for a reply with status 200 and
    a body that is not empty: any other status (201 and 204 included) and
    an empty body raise [EspoAPIError], and the absence of a reply raises
    the exception of [requests]. *)
Theorem api_request_accepts_only_200 (c : EspoAPI) (m : http_method)
    (action : string) (params : json) (w : world) (st : state) :
  let rq := api_request_of c m action params in
  let rp := http w (exchanges st) rq in
  exchanges (snd (api_request c m action params w st))
  = (exchanges st ++ [(rq, rp)])%list
  /\ (forall r,
        fst (api_request c m action params w st) = Returned r
        <-> rp = Reply r /\ status_code r = 200%Z /\ content r <> BodyEmpty)
  /\ (forall e,
        fst (api_request c m action params w st) = Raised e ->
        match rp with
        | NoReply error => e = Exn RequestException error
        | Reply _ => exn_kind e = EspoAPIError
        end).
Proof.
  intros rq rp. unfold api_request. rewrite bind_run, emit_run, bind_run.
  unfold send. simpl exchanges. fold rq. fold rp.
  destruct rp as [err|r]; simpl.
  - split; [reflexivity|]. split.
    + intros r0. split; [discriminate|]. now intros [H _].
    + intros e H. now injection H as <-.
  - destruct (Z.eqb_spec (status_code r) 200) as [E|E]; simpl.
    + destruct (content r) eqn:Ec; simpl.
      * split; [reflexivity|]. split.
        -- intros r0. split; [discriminate|].
           intros (H & _ & Hne). injection H as <-. congruence.
        -- intros e H. now injection H as <-.
      * split; [reflexivity|]. split.
        -- intros r0. split.
           ++ intros H. injection H as <-. rewrite Ec. repeat split; auto.
              discriminate.
           ++ intros (H & _). now injection H as <-.
        -- discriminate.
      * split; [reflexivity|]. split.
        -- intros r0. split.
           ++ intros H. injection H as <-. rewrite Ec. repeat split; auto.
              discriminate.
           ++ intros (H & _). now injection H as <-.
        -- discriminate.
    + split; [reflexivity|]. split.
      * intros r0. split; [discriminate|].
        intros (H & Hc & _). injection H as <-. contradiction.
      * intros e H. now injection H as <-.
Qed.

(** X17. [create_lead] never raises.  It reads the clock once and makes
    one exchange, a POST to [Lead] whose JSON body is the payload it was
    given with the entry ["name"] set to the given name (["Lead"] when there
    is none), [" - "] and the timestamp; every other entry of the payload
    is sent as it was given. *)
Theorem create_lead_sends_payload (sc : json -> string) (c : EspoAPI)
    (payload : Dict.t json) (w : world) (st : state) :
  let t := now w (clock_reads st) in
  exists res st' sent rp,
    create_lead sc c payload w st = (Returned res, st')
    /\ clock_reads st' = S (clock_reads st)
    /\ exchanges st'
       = (exchanges st ++ [(api_request_of c POST "Lead" (JDict sent), rp)])%list
    /\ Dict.get "name" sent
       = Some (JStr (match Dict.get "name" payload with
                     | Some name => py_str sc name
                     | None => "Lead"
                     end ++ " - " ++ strftime t))
    /\ (forall k, k <> "name" -> Dict.get k sent = Dict.get k payload)
    /\ (Dict.wf payload -> Dict.wf sent).
Proof.
  intros t.
  destruct (create_lead_run sc c payload w st)
    as (res & st' & Hrun & Hx & Hc & _).
  exists res, st'.
  exists (Dict.set "name" (JStr (lead_name sc payload t)) payload).
  eexists. split; [exact Hrun|]. split; [exact Hc|]. split; [exact Hx|].
  split; [apply get_set_same|]. split.
  - intros k Hk. now apply get_set_other.
  - apply set_wf.
Qed.

(** X19. A push whose parameters hold neither ["firstName"] nor
    ["lastName"] and whose contact query reports no contact creates a
    contact named ["None None"], with both names null. *)
Theorem push_to_crm_nameless_contact (sc : json -> string)
    (params : Dict.t json) (w : world) (st : state) (d : Dict.t json) :
  Dict.get "firstName" params = None ->
  Dict.get "lastName" params = None ->
  answer_of (query_reply params w st) = Some (JDict d) ->
  Dict.get "total" d = Some (JNum 0) ->
  exists rp rest,
    issued st (snd (push_to_crm sc params w st))
    = (query_request default_client (phone_of params),
       query_reply params w st)
      :: (api_request_of default_client POST "Contact"
            (JDict [("name", JStr "None None");
                    ("firstName", JNone);
                    ("lastName", JNone);
                    ("phoneNumber", phone_of params)]), rp)
      :: rest.
Proof.
  intros Hf Hl Hq Hz. apply total_zero in Hz.
  rewrite push_to_crm_run.
  rewrite (get_contact_answered sc default_client _ _ _ (JDict d) w
             (pushing params st) Hq).
  assert (Ef : first_name_of params = JNone)
    by (unfold first_name_of, get_or_null, Dict.get_default; now rewrite Hf).
  assert (El : last_name_of params = JNone)
    by (unfold last_name_of, get_or_null, Dict.get_default; now rewrite Hl).
  rewrite Ef, El.
  set (st1 := queried default_client (phone_of params) w (pushing params st)).
  destruct (answer_of (http w (exchanges st1)
              (contact_request sc default_client JNone JNone (phone_of params))))
    as [data|] eqn:Hc.
  - destruct (upsert_zero_contact_created sc default_client d JNone JNone
                (phone_of params) data w st1 Hz Hc)
      as (lead_result & st2 & -> & Hx & _).
    simpl exchanges in Hx. do 2 eexists.
    apply issued_app. simpl exchanges. rewrite Hx, <- app_assoc. reflexivity.
  - destruct (upsert_zero_contact_failed sc default_client d JNone JNone
                (phone_of params) w st1 Hz Hc)
      as (e & st2 & -> & _ & Hx).
    simpl exchanges in Hx. exists (http w (exchanges st1)
      (contact_request sc default_client JNone JNone (phone_of params))), [].
    apply issued_app. simpl exchanges. rewrite Hx, <- app_assoc. reflexivity.
Qed.

Lemma push_to_crm_nameless_contact_witness :
  exists rp rest,
    issued initial
      (snd (push_to_crm no_containers [("phoneNumber", JStr "+380501234567")]
              crm_refusing initial))
    = (query_request default_client (JStr "+380501234567"),
       contact_list [])
      :: (api_request_of default_client POST "Contact"
            (JDict [("name", JStr "None None");
                    ("firstName", JNone);
                    ("lastName", JNone);
                    ("phoneNumber", JStr "+380501234567")]), rp)
      :: rest.
Proof.
  exact (push_to_crm_nameless_contact no_containers
           [("phoneNumber", JStr "+380501234567")] crm_refusing initial
           [("total", JNum 0); ("list", JList [])]
           eq_refl eq_refl eq_refl eq_refl).
Defined.

(** X20. An answer to the contact query that has no ["total"] entry is
    taken to report no contact, whatever its list holds: exactly one
    contact-create request is sent. *)
Theorem push_to_crm_total_missing (sc : json -> string)
    (params : Dict.t json) (w : world) (st : state) (d : Dict.t json) :
  answer_of (query_reply params w st) = Some (JDict d) ->
  Dict.get "total" d = None ->
  contact_creates (issued st (snd (push_to_crm sc params w st))) = 1.
Proof.
  intros Hq Ht.
  assert (Hz : eq_zero (Dict.get_default "total" (JNum 0) d) = true)
    by (unfold Dict.get_default; now rewrite Ht).
  rewrite push_to_crm_run.
  rewrite (get_contact_answered sc default_client _ _ _ (JDict d) w
             (pushing params st) Hq).
  set (st1 := queried default_client (phone_of params) w (pushing params st)).
  destruct (answer_of (http w (exchanges st1)
              (contact_request sc default_client (first_name_of params)
                 (last_name_of params) (phone_of params))))
    as [data|] eqn:Hc.
  - destruct (upsert_zero_contact_created sc default_client d _ _ _
                data w st1 Hz Hc)
      as (lead_result & st2 & -> & Hx & _).
    simpl exchanges in Hx. simpl snd.
    rewrite (issued_app st (add_log st2 _) _
               ltac:(simpl exchanges; rewrite Hx, <- app_assoc; reflexivity)).
    apply counts_query_contact_lead.
  - destruct (upsert_zero_contact_failed sc default_client d _ _ _
                w st1 Hz Hc)
      as (e & st2 & -> & _ & Hx).
    simpl exchanges in Hx. simpl snd.
    rewrite (issued_app st (add_log st2 _) _
               ltac:(simpl exchanges; rewrite Hx, <- app_assoc; reflexivity)).
    apply counts_query_contact.
Qed.

Lemma push_to_crm_total_missing_witness :
  contact_creates
    (issued initial
       (snd (push_to_crm no_containers person
               (World (fun _ rq =>
                         match req_method rq with
                         | GET => ok_json (JDict [("list", JList [stored_contact])])
                         | _ => ok_json stored_contact
                         end) within_noon)
               initial)))
  = 1.
Proof.
  exact (push_to_crm_total_missing no_containers person
           (World (fun _ rq =>
                     match req_method rq with
                     | GET => ok_json (JDict [("list", JList [stored_contact])])
                     | _ => ok_json stored_contact
                     end) within_noon)
           initial [("list", JList [stored_contact])] eq_refl eq_refl).
Defined.

Lemma first_item_state (found_list : json) (w : world) (st : state) :
  snd (first_item found_list w st) = st.
Proof.
  destruct found_list as [[| | |[|a s]]|[|x l]|d']; reflexivity.
Qed.

(** X23. The top-level status of what [push_to_crm] returns is
    ["pushed"] or ["error"].  It is ["error"] only when the contact query
    was answered (status 200, a body that decodes) and the workflow could
    not use the answer; the query is then the only request sent. *)
Theorem push_to_crm_top_level_status (sc : json -> string)
    (params : Dict.t json) (w : world) (st : state) :
  exists result st',
    push_to_crm sc params w st = (Returned result, st')
    /\ (status_of result = JStr "pushed" \/ status_of result = JStr "error")
    /\ (status_of result = JStr "error" ->
        issued st st'
        = [(query_request default_client (phone_of params),
            query_reply params w st)]
        /\ answer_of (query_reply params w st) <> None).
Proof.
  rewrite push_to_crm_run.
  destruct (answer_of (query_reply params w st)) as [data|] eqn:Hq.
  - rewrite (get_contact_answered sc default_client _ _ _ data w
               (pushing params st) Hq).
    destruct (upsert sc default_client data _ _ _ w _)
      as [[result|e] st2] eqn:Hup.
    + do 2 eexists. split; [reflexivity|]. split; [now left|discriminate].
    + do 2 eexists. split; [reflexivity|]. split; [now right|].
      intros _. split; [|discriminate].
      apply upsert_raises in Hup. apply issued_app. exact Hup.
  - destruct (get_contact_unanswered sc default_client (first_name_of params)
                (last_name_of params) (phone_of params) w
                (pushing params st) Hq) as (e & st1 & -> & Hx).
    do 2 eexists. split; [reflexivity|]. split; [now left|discriminate].
Qed.

(** X24. An answer to the contact query that is not a JSON object, or
    that reports contacts without a usable list (no ["list"] entry, or an
    empty list), makes [push_to_crm] return [{status: "error", message}]
    at the top level; neither a contact nor a lead is created. *)
Theorem push_to_crm_answer_unusable (sc : json -> string)
    (params : Dict.t json) (w : world) (st : state) (data : json) :
  answer_of (query_reply params w st) = Some data ->
  (forall d, data = JDict d ->
     eq_zero (Dict.get_default "total" (JNum 0) d) = false
     /\ (Dict.get "list" d = None \/ Dict.get "list" d = Some (JList []))) ->
  exists e,
    fst (push_to_crm sc params w st) = Returned (error_result e)
    /\ ((forall d, data <> JDict d) -> exn_kind e = AttributeError)
    /\ (forall d, data = JDict d -> Dict.get "list" d = None ->
        e = Exn KeyError "'list'")
    /\ (forall d, data = JDict d -> Dict.get "list" d = Some (JList []) ->
        e = Exn IndexError "list index out of range")
    /\ issued st (snd (push_to_crm sc params w st))
       = [(query_request default_client (phone_of params),
           query_reply params w st)].
Proof.
  intros Hq Hbad. rewrite push_to_crm_run.
  rewrite (get_contact_answered sc default_client _ _ _ data w
             (pushing params st) Hq).
  assert (Hup : exists e,
             upsert sc default_client data (first_name_of params)
               (last_name_of params) (phone_of params) w
               (queried default_client (phone_of params) w (pushing params st))
             = (Raised e,
                match data with
                | JDict d =>
                    add_log (queried default_client (phone_of params) w
                               (pushing params st))
                      [found (Dict.get_default "total" (JNum 0) d)
                         (phone_of params)]
                | _ => queried default_client (phone_of params) w
                         (pushing params st)
                end)
             /\ ((forall d, data <> JDict d) -> exn_kind e = AttributeError)
             /\ (forall d, data = JDict d -> Dict.get "list" d = None ->
                 e = Exn KeyError "'list'")
             /\ (forall d, data = JDict d ->
                 Dict.get "list" d = Some (JList []) ->
                 e = Exn IndexError "list index out of range")).
  { unfold upsert. rewrite bind_run. destruct data as [v|l|d].
    - cbn [method_get raise]. eexists. split; [reflexivity|].
      split; [reflexivity|]. split; intros d E; discriminate.
    - cbn [method_get raise]. eexists. split; [reflexivity|].
      split; [reflexivity|]. split; intros d E; discriminate.
    - destruct (Hbad d eq_refl) as [Hz Hl].
      cbn [method_get ret]. rewrite bind_run, emit_run, Hz, bind_run.
      cbn [item].
      destruct Hl as [Hl|Hl]; rewrite Hl.
      + cbn [raise]. eexists. split; [reflexivity|].
        split; [intros H; now destruct (H d)|]. split.
        * reflexivity.
        * intros d' E. injection E as <-. congruence.
      + cbn [ret]. rewrite bind_run. cbn [first_item raise].
        eexists. split; [reflexivity|].
        split; [intros H; now destruct (H d)|]. split.
        * intros d' E. injection E as <-. congruence.
        * reflexivity. }
  destruct Hup as (e & -> & Hattr & Hkey & Hidx).
  exists e. split; [reflexivity|]. repeat split; auto.
  apply issued_app. destruct data; reflexivity.
Qed.

Lemma push_to_crm_answer_unusable_witness :
  fst (push_to_crm no_containers person
         (World (fun _ _ => ok_json (JDict [("total", JNum 1)])) within_noon)
         initial)
  = Returned (error_result (Exn KeyError "'list'")).
Proof.
  destruct (push_to_crm_answer_unusable no_containers person
              (World (fun _ _ => ok_json (JDict [("total", JNum 1)]))
                 within_noon)
              initial (JDict [("total", JNum 1)]) eq_refl)
    as (e & Hrun & _ & Hkey & _).
  - intros d E. injection E as <-. split; [reflexivity|now left].
  - rewrite Hrun. now rewrite (Hkey _ eq_refl eq_refl).
Defined.

(** * From a push to a call *)

Lemma not_enough_of_none (params : Dict.t json) :
  resolve lead_id_keys (parsed_data_of params) = SNone ->
  truthy (resolve lead_id_keys (parsed_data_of params))
  && truthy (resolve number_id_keys (parsed_data_of params))
  && truthy (resolve created_by_id_keys (parsed_data_of params)) = false.
Proof. now intros ->. Qed.

(** X25. When the contact query of a push gets no usable answer (no
    reply, a status other than 200, an empty or undecodable body),
    [start_call] on the result of the push finds none of its fields: it
    logs the warning and sends nothing. *)
Theorem start_call_after_failed_query (sc : json -> string)
    (params : Dict.t json) (w : world) (st : state)
    (w' : world) (st' : state) :
  answer_of (query_reply params w st) = None ->
  start_call (event_of (returned (fst (push_to_crm sc params w st)))) w' st'
  = (Returned tt,
     gave_up (event_of (returned (fst (push_to_crm sc params w st)))) st').
Proof.
  intros Hq. rewrite push_to_crm_run.
  destruct (get_contact_unanswered sc default_client (first_name_of params)
              (last_name_of params) (phone_of params) w
              (pushing params st) Hq) as (e & st1 & -> & _).
  cbn [fst returned]. apply start_call_not_enough, not_enough_of_none.
  reflexivity.
Qed.

Lemma start_call_after_failed_query_witness :
  start_call
    (event_of (returned (fst (push_to_crm no_containers person crm_down
                                initial))))
    telephony_idle initial
  = (Returned tt,
     gave_up
       (event_of (returned (fst (push_to_crm no_containers person crm_down
                                   initial))))
       initial).
Proof.
  exact (start_call_after_failed_query no_containers person crm_down initial
           telephony_idle initial eq_refl).
Defined.

Lemma get_after_sets (k k1 k2 : string) (v1 v2 : scalar)
    (d : Dict.t scalar) :
  k <> k1 -> k <> k2 ->
  Dict.get k (Dict.set k2 v2 (Dict.set k1 v1 d)) = Dict.get k d.
Proof. intros H1 H2. now rewrite !get_set_other. Qed.

Lemma lost_lead_gives_up (data : json) (e : exn) (w : world) (st : state) :
  let result :=
    pushed (JDict [("status", JStr "created");
                   ("contact", success_result "contact" data);
                   ("lead", error_result e)]) in
  start_call (event_of result) w st = (Returned tt, gave_up (event_of result) st).
Proof.
  intros result.
  assert (H : forall key,
             starts_with "crm_result.contact.contact" key = false ->
             key <> "crm_result.lead.status" ->
             key <> "crm_result.lead.message" ->
             Dict.get key (parsed_data_of (event_of result))
             = Dict.get key [("status", SStr "pushed");
                             ("crm_result.status", SStr "created");
                             ("crm_result.contact.status", SStr "success")]).
  { intros key Hout H1 H2. unfold parsed_data_of, event_of, result, pushed,
      success_result, error_result, parse_json.
    cbn [Dict.get_default Dict.get String.eqb Ascii.eqb Bool.eqb
           parse_json_acc JStr].
    rewrite !dict_key_top.
    change (dict_key "crm_result" "status") with "crm_result.status".
    change (dict_key "crm_result" "contact") with "crm_result.contact".
    change (dict_key "crm_result" "lead") with "crm_result.lead".
    change (dict_key "crm_result.contact" "status")
      with "crm_result.contact.status".
    change (dict_key "crm_result.contact" "contact")
      with "crm_result.contact.contact".
    change (dict_key "crm_result.lead" "status") with "crm_result.lead.status".
    change (dict_key "crm_result.lead" "message")
      with "crm_result.lead.message".
    rewrite get_after_sets by assumption.
    rewrite get_outside_path by assumption. reflexivity. }
  apply start_call_not_enough, not_enough_of_none.
  unfold resolve, get_or_none, Dict.get_default.
  cbn [fst snd lead_id_keys].
  rewrite !H by (reflexivity || discriminate). reflexivity.
Qed.

(** X26. When a push finds no contact, creates one and cannot create
    the lead, [start_call] on the result of the push finds none of its
    fields, whatever the CRM answered for the new contact: that answer
    sits one level too deep for the contact-shaped paths.  The warning is
    logged and nothing is sent. *)
Theorem start_call_after_lost_lead (sc : json -> string)
    (params : Dict.t json) (w : world) (st : state) (d : Dict.t json)
    (data : json) (w' : world) (st' : state) :
  answer_of (query_reply params w st) = Some (JDict d) ->
  Dict.get "total" d = Some (JNum 0) ->
  answer_of (contact_reply sc params w st) = Some data ->
  answer_of (lead_reply_created sc params w st) = None ->
  start_call (event_of (returned (fst (push_to_crm sc params w st)))) w' st'
  = (Returned tt,
     gave_up (event_of (returned (fst (push_to_crm sc params w st)))) st').
Proof.
  intros Hq Hz Hc Hl. apply total_zero in Hz.
  rewrite push_to_crm_run.
  rewrite (get_contact_answered sc default_client _ _ _ (JDict d) w
             (pushing params st) Hq).
  destruct (upsert_zero_contact_created sc default_client d
              (first_name_of params) (last_name_of params) (phone_of params)
              data w (queried default_client (phone_of params) w
                        (pushing params st)) Hz Hc)
    as (lead_result & st2 & -> & _ & Hres).
  simpl exchanges in Hres. simpl clock_reads in Hres.
  rewrite <- app_assoc in Hres. simpl app in Hres.
  unfold lead_reply_created, lead_request_of, contact_reply, query_reply
    in Hl.
  rewrite Hl in Hres. destruct Hres as [e ->].
  cbn [fst returned]. apply lost_lead_gives_up.
Qed.

Lemma start_call_after_lost_lead_witness :
  start_call
    (event_of (returned (fst (push_to_crm no_containers person
                                (crm_without_leads []) initial))))
    telephony_idle initial
  = (Returned tt,
     gave_up
       (event_of (returned (fst (push_to_crm no_containers person
                                   (crm_without_leads []) initial))))
       initial).
Proof.
  exact (start_call_after_lost_lead no_containers person
           (crm_without_leads []) initial
           [("total", JNum 0); ("list", JList [])] stored_contact
           telephony_idle initial eq_refl eq_refl eq_refl eq_refl).
Defined.

Lemma resolve_first (keys : aliases) (parsed_data : Dict.t scalar)
    (v : scalar) :
  Dict.get (fst keys) parsed_data = Some v -> truthy v = true ->
  resolve keys parsed_data = v.
Proof.
  intros H Ht. unfold resolve, get_or_none, Dict.get_default, py_or.
  now rewrite H, Ht.
Qed.

Lemma resolve_second (keys : aliases) (parsed_data : Dict.t scalar)
    (v : scalar) :
  Dict.get (fst keys) parsed_data = None ->
  Dict.get (snd keys) parsed_data = Some v ->
  resolve keys parsed_data = v.
Proof.
  intros H1 H2. unfold resolve, get_or_none, Dict.get_default, py_or.
  now rewrite H1, H2.
Qed.

Lemma field_of_lead (status contact : json) (L : Dict.t json)
    (key : string) (v : scalar) :
  Dict.wf L -> plain_key key = true ->
  Dict.get key L = Some (JScalar v) ->
  Dict.get ("crm_result.lead.lead." ++ key)
    (parsed_data_of
       (event_of (pushed (JDict [("status", status); ("contact", contact);
                                 ("lead", success_result "lead" (JDict L))]))))
  = Some v.
Proof.
  intros Hwf Hplain Hget.
  unfold parsed_data_of, event_of, pushed, success_result, parse_json.
  cbn [Dict.get_default Dict.get String.eqb Ascii.eqb Bool.eqb].
  change "crm_result.lead.lead."%string with ("crm_result.lead.lead" ++ ".").
  rewrite str_app_assoc.
  cbn -[append Dict.set Dict.get].
  match goal with
  | |- Dict.get _ (?f L ?r) = _ =>
      change (f L r) with (parse_json_acc (JDict L) "crm_result.lead.lead" r)
  end.
  apply get_field; auto. discriminate.
Qed.

(** X27. When a push returned a workflow result whose lead is a
    success carrying an object with a truthy ["id"], a non-empty string
    ["phoneNumber"] and a truthy ["createdById"], [start_call] on that
    result resolves its three fields to those of the lead, whatever the
    contact part holds, and goes on to the gate with that number. *)
Theorem start_call_uses_created_lead (sc : json -> string)
    (params : Dict.t json) (w : world) (st : state)
    (status contact : json) (L : Dict.t json)
    (lead_id created_by_id : scalar) (number : string)
    (w' : world) (st' : state) :
  let result :=
    pushed (JDict [("status", status); ("contact", contact);
                   ("lead", success_result "lead" (JDict L))]) in
  fst (push_to_crm sc params w st) = Returned result ->
  Dict.wf L ->
  Dict.get "id" L = Some (JScalar lead_id) -> truthy lead_id = true ->
  Dict.get "phoneNumber" L = Some (JStr number) -> number <> "" ->
  Dict.get "createdById" L = Some (JScalar created_by_id) ->
  truthy created_by_id = true ->
  resolve lead_id_keys (parsed_data_of (event_of result)) = lead_id
  /\ resolve number_id_keys (parsed_data_of (event_of result)) = SStr number
  /\ resolve created_by_id_keys (parsed_data_of (event_of result))
     = created_by_id
  /\ start_call (event_of result) w' st'
     = gate (SStr number) w' (fields_logged (event_of result) st').
Proof.
  intros result _ Hwf Hid Tid Hnum Nnum Hcb Tcb.
  assert (Tnum : truthy (SStr number) = true)
    by (simpl; now destruct (String.eqb_spec number "")).
  assert (R1 : resolve lead_id_keys (parsed_data_of (event_of result))
               = lead_id)
    by (apply resolve_first; [now apply (field_of_lead _ _ L "id")|exact Tid]).
  assert (R2 : resolve number_id_keys (parsed_data_of (event_of result))
               = SStr number)
    by (apply resolve_first;
        [now apply (field_of_lead _ _ L "phoneNumber")|exact Tnum]).
  assert (R3 : resolve created_by_id_keys (parsed_data_of (event_of result))
               = created_by_id)
    by (apply resolve_first;
        [now apply (field_of_lead _ _ L "createdById")|exact Tcb]).
  repeat split; auto.
  rewrite start_call_enough; [now rewrite R2|].
  rewrite R1, R2, R3. now apply truthy_all.
Qed.

Lemma start_call_uses_created_lead_witness :
  start_call
    (event_of (returned (fst (push_to_crm no_containers person
                                (crm_with [] within_noon) initial))))
    telephony_idle initial
  = gate (SStr "+380501234567") telephony_idle
      (fields_logged
         (event_of (returned (fst (push_to_crm no_containers person
                                     (crm_with [] within_noon) initial))))
         initial).
Proof.
  refine (proj2 (proj2 (proj2
    (start_call_uses_created_lead no_containers person
       (crm_with [] within_noon) initial
       (JStr "created") (success_result "contact" stored_contact)
       [("id", JStr "L1"); ("phoneNumber", JStr "+380501234567");
        ("createdById", JStr "U1")]
       (SStr "L1") (SStr "U1") "+380501234567" telephony_idle initial
       eq_refl _ eq_refl eq_refl eq_refl _ eq_refl eq_refl)))).
  - unfold Dict.wf; simpl.
    repeat (constructor; [simpl; intuition discriminate|]). constructor.
  - discriminate.
Defined.

Lemma field_of_contact (C : Dict.t json) (e : exn) (key : string)
    (v : scalar) :
  Dict.wf C -> plain_key key = true ->
  Dict.get key C = Some (JScalar v) ->
  let parsed_data :=
    parsed_data_of
      (event_of (pushed (JDict [("status", JStr "success");
                                ("contact", JDict C);
                                ("lead", error_result e)]))) in
  Dict.get ("crm_result.lead.lead." ++ key) parsed_data = None
  /\ Dict.get ("crm_result.contact." ++ key) parsed_data = Some v.
Proof.
  intros Hwf Hplain Hget parsed_data.
  assert (E : parsed_data
              = Dict.set "crm_result.lead.message" (SStr (exn_str e))
                  (Dict.set "crm_result.lead.status" (SStr "error")
                     (parse_json_acc (JDict C) "crm_result.contact"
                        [("status", SStr "pushed");
                         ("crm_result.status", SStr "success")])))
    by reflexivity.
  rewrite E. split.
  - rewrite get_after_sets.
    + rewrite get_outside_path by reflexivity. reflexivity.
    + intros H. apply (f_equal (fun s => String.get 16 s)) in H.
      cbn in H. discriminate.
    + intros H. apply (f_equal (fun s => String.get 16 s)) in H.
      cbn in H. discriminate.
  - rewrite get_after_sets.
    + change ("crm_result.contact." ++ key)
        with ("crm_result.contact" ++ "." ++ key).
      apply get_field; auto. discriminate.
    + intros H. apply (f_equal (fun s => String.get 11 s)) in H.
      cbn in H. discriminate.
    + intros H. apply (f_equal (fun s => String.get 11 s)) in H.
      cbn in H. discriminate.
Qed.

(** X28. When a push found the contact and could not create the lead,
    [start_call] on its result falls back to the contact: with a truthy
    ["id"], a non-empty string ["phoneNumber"] and a truthy
    ["createdById"] in the first contact of the list, the three fields
    resolve to those and [start_call] goes on to the gate with the
    number of the contact. *)
Theorem start_call_falls_back_to_contact (sc : json -> string)
    (params : Dict.t json) (w : world) (st : state) (d : Dict.t json)
    (total : Z) (C : Dict.t json) (rest : list json)
    (contact_id created_by_id : scalar) (number : string)
    (w' : world) (st' : state) :
  let result := returned (fst (push_to_crm sc params w st)) in
  answer_of (query_reply params w st) = Some (JDict d) ->
  Dict.get "total" d = Some (JNum total) -> (0 < total)%Z ->
  Dict.get "list" d = Some (JList (JDict C :: rest)) ->
  answer_of (lead_reply_existing sc params w st) = None ->
  Dict.wf C ->
  Dict.get "id" C = Some (JScalar contact_id) -> truthy contact_id = true ->
  Dict.get "phoneNumber" C = Some (JStr number) -> number <> "" ->
  Dict.get "createdById" C = Some (JScalar created_by_id) ->
  truthy created_by_id = true ->
  resolve lead_id_keys (parsed_data_of (event_of result)) = contact_id
  /\ resolve number_id_keys (parsed_data_of (event_of result)) = SStr number
  /\ resolve created_by_id_keys (parsed_data_of (event_of result))
     = created_by_id
  /\ start_call (event_of result) w' st'
     = gate (SStr number) w' (fields_logged (event_of result) st').
Proof.
  intros result Hq Ht Hpos Hlist Hl Hwf Hid Tid Hnum Nnum Hcb Tcb.
  pose proof (total_positive d total Ht Hpos) as Hnz.
  assert (Tnum : truthy (SStr number) = true)
    by (simpl; now destruct (String.eqb_spec number "")).
  assert (E : exists e,
             result = pushed (JDict [("status", JStr "success");
                                     ("contact", JDict C);
                                     ("lead", error_result e)])).
  { unfold result. rewrite push_to_crm_run.
    rewrite (get_contact_answered sc default_client _ _ _ (JDict d) w
               (pushing params st) Hq).
    destruct (upsert_match sc default_client d
                (first_name_of params) (last_name_of params) (phone_of params)
                (JDict C) rest w (queried default_client (phone_of params) w
                                    (pushing params st)) Hnz Hlist)
      as (lead_result & st2 & -> & _ & Hres).
    simpl exchanges in Hres. simpl clock_reads in Hres.
    unfold lead_reply_existing, lead_request_of, query_reply in Hl.
    rewrite Hl in Hres. destruct Hres as [e ->]. now exists e. }
  destruct E as [e E]. rewrite E.
  destruct (field_of_contact C e "id" contact_id Hwf eq_refl Hid) as [A1 B1].
  destruct (field_of_contact C e "phoneNumber" (SStr number) Hwf eq_refl Hnum)
    as [A2 B2].
  destruct (field_of_contact C e "createdById" created_by_id Hwf eq_refl Hcb)
    as [A3 B3].
  assert (R1 : resolve lead_id_keys (parsed_data_of (event_of
                 (pushed (JDict [("status", JStr "success");
                                 ("contact", JDict C);
                                 ("lead", error_result e)])))) = contact_id)
    by (apply resolve_second; assumption).
  assert (R2 : resolve number_id_keys (parsed_data_of (event_of
                 (pushed (JDict [("status", JStr "success");
                                 ("contact", JDict C);
                                 ("lead", error_result e)])))) = SStr number)
    by (apply resolve_second; assumption).
  assert (R3 : resolve created_by_id_keys (parsed_data_of (event_of
                 (pushed (JDict [("status", JStr "success");
                                 ("contact", JDict C);
                                 ("lead", error_result e)]))))
               = created_by_id)
    by (apply resolve_second; assumption).
  repeat split; auto.
  rewrite start_call_enough; [now rewrite R2|].
  rewrite R1, R2, R3. now apply truthy_all.
Qed.

Lemma start_call_falls_back_to_contact_witness :
  start_call
    (event_of (returned (fst (push_to_crm no_containers person
                                (crm_without_leads [stored_contact])
                                initial))))
    telephony_idle initial
  = gate (SStr "+380501234567") telephony_idle
      (fields_logged
         (event_of (returned (fst (push_to_crm no_containers person
                                     (crm_without_leads [stored_contact])
                                     initial))))
         initial).
Proof.
  refine (proj2 (proj2 (proj2
    (start_call_falls_back_to_contact no_containers person
       (crm_without_leads [stored_contact]) initial
       [("total", JNum 1); ("list", JList [stored_contact])] 1
       [("id", JStr "C1"); ("phoneNumber", JStr "+380501234567");
        ("createdById", JStr "U1")] []
       (SStr "C1") (SStr "U1") "+380501234567" telephony_idle initial
       eq_refl eq_refl eq_refl eq_refl eq_refl _ eq_refl eq_refl eq_refl _
       eq_refl eq_refl)))).
  - unfold Dict.wf; simpl.
    repeat (constructor; [simpl; intuition discriminate|]). constructor.
  - discriminate.
Defined.

(** * More on the CRM workflow *)

(** X18. [create_contact] and [create_lead] never raise, and the status
    of what they return follows the reply to their one request: it is
    ["success"] exactly when the reply has status 200 and a body that
    decodes as JSON, and ["error"] otherwise; a reply with status 200
    and a body that does not decode is an error as well. *)
Theorem create_results_follow_answer (sc : json -> string) (c : EspoAPI)
    (first_name last_name phone : json) (payload : Dict.t json)
    (w : world) (st : state) :
  (exists res st',
     create_contact sc c first_name last_name phone w st = (Returned res, st')
     /\ status_of res
        = match answer_of (http w (exchanges st)
                  (contact_request sc c first_name last_name phone)) with
          | Some _ => JStr "success"
          | None => JStr "error"
          end)
  /\ (exists res st',
        create_lead sc c payload w st = (Returned res, st')
        /\ status_of res
           = match answer_of (http w (exchanges st)
                     (lead_request sc c payload (now w (clock_reads st)))) with
             | Some _ => JStr "success"
             | None => JStr "error"
             end).
Proof.
  split.
  - destruct (create_contact_run sc c first_name last_name phone w st)
      as (res & st' & Hrun & _ & _ & Hres).
    exists res, st'. split; [exact Hrun|].
    destruct (answer_of _) as [data|]; [now subst res|].
    destruct Hres as [e ->]. reflexivity.
  - destruct (create_lead_run sc c payload w st)
      as (res & st' & Hrun & _ & _ & Hres).
    exists res, st'. split; [exact Hrun|].
    destruct (answer_of _) as [data|]; [now subst res|].
    destruct Hres as [e ->]. reflexivity.
Qed.

(** X21. When the contact query is answered with an object whose total
    is not zero, [push_to_crm] never creates a contact, whatever the
    list of the answer holds and whatever happens afterwards. *)
Theorem push_to_crm_no_duplicate_contact (sc : json -> string)
    (params : Dict.t json) (w : world) (st : state) (d : Dict.t json) :
  answer_of (query_reply params w st) = Some (JDict d) ->
  eq_zero (Dict.get_default "total" (JNum 0) d) = false ->
  contact_creates (issued st (snd (push_to_crm sc params w st))) = 0.
Proof.
  intros Hq Hnz. rewrite push_to_crm_run.
  rewrite (get_contact_answered sc default_client _ _ _ (JDict d) w
             (pushing params st) Hq).
  set (st1 := queried default_client (phone_of params) w (pushing params st)).
  destruct (upsert sc default_client (JDict d) (first_name_of params)
              (last_name_of params) (phone_of params) w st1)
    as [[result|e] st2] eqn:Hup.
  - unfold upsert in Hup. rewrite bind_run in Hup.
    cbn [method_get ret] in Hup.
    rewrite bind_run, emit_run, Hnz in Hup. rewrite bind_run in Hup.
    cbn [item] in Hup.
    destruct (Dict.get "list" d) as [found_list|]; [|discriminate].
    cbn [ret] in Hup. rewrite bind_run in Hup.
    match type of Hup with
    | context [first_item found_list w ?s] =>
        pose proof (first_item_state found_list w s) as Hst;
        destruct (first_item found_list w s) as [[contact|e2] st3];
        [|discriminate]
    end.
    simpl in Hst. subst st3. rewrite bind_run in Hup.
    match type of Hup with
    | context [create_lead sc default_client ?p w ?s] =>
        destruct (create_lead_run sc default_client p w s)
          as (lead_result & st4 & Hrun & Hx & _)
    end.
    rewrite Hrun in Hup. cbn [ret] in Hup. injection Hup as _ <-.
    simpl exchanges in Hx. simpl clock_reads in Hx. simpl snd.
    rewrite (issued_app st (add_log st4 _) _
               ltac:(simpl exchanges; rewrite Hx, <- app_assoc; reflexivity)).
    reflexivity.
  - apply upsert_raises in Hup. simpl exchanges in Hup. simpl snd.
    rewrite (issued_app st (add_log st2 _) _ Hup). reflexivity.
Qed.

Lemma push_to_crm_no_duplicate_contact_witness :
  contact_creates
    (issued initial
       (snd (push_to_crm no_containers person
               (crm_with [stored_contact] within_noon) initial)))
  = 0.
Proof.
  exact (push_to_crm_no_duplicate_contact no_containers person
           (crm_with [stored_contact] within_noon) initial
           [("total", JNum 1); ("list", JList [stored_contact])]
           eq_refl eq_refl).
Defined.

(** * Instances of the properties above *)

Lemma parse_json_entries_are_leaves_witness :
  In (SNum 2) (leaves (JDict [("a", JList [JNum 1; JNum 2])])).
Proof.
  refine (proj2 (parse_json_entries_are_leaves
                   (JDict [("a", JList [JNum 1; JNum 2])]))
            "a[1]" (SNum 2) _).
  simpl. right. now left.
Defined.

Lemma api_request_accepts_only_200_witness :
  fst (api_request default_client POST "Lead" (JDict [])
         (crm_with [] within_noon) initial)
  = Returned (Response 200 "OK" None (BodyJson stored_lead)).
Proof.
  refine (proj2 (proj1 (proj2 (api_request_accepts_only_200 default_client
                                 POST "Lead" (JDict [])
                                 (crm_with [] within_noon) initial))
                   (Response 200 "OK" None (BodyJson stored_lead))) _).
  split; [reflexivity|]. split; [reflexivity|discriminate].
Defined.

Lemma create_lead_sends_payload_witness :
  exists sent rp,
    exchanges
      (snd (create_lead no_containers default_client
              (lead_payload (JStr "Ann") (JStr "Lee") (JStr "+380501234567"))
              (crm_with [] within_noon) initial))
    = [(api_request_of default_client POST "Lead" (JDict sent), rp)]
    /\ Dict.get "firstName" sent = Some (JStr "Ann")
    /\ Dict.wf sent.
Proof.
  destruct (create_lead_sends_payload no_containers default_client
              (lead_payload (JStr "Ann") (JStr "Lee") (JStr "+380501234567"))
              (crm_with [] within_noon) initial)
    as (res & st' & sent & rp & Hrun & _ & Hx & _ & Hother & Hwf).
  exists sent, rp. rewrite Hrun. split; [exact Hx|]. split.
  - rewrite (Hother "firstName"); [reflexivity|discriminate].
  - apply Hwf. unfold Dict.wf; simpl.
    repeat (constructor; [simpl; intuition discriminate|]). constructor.
Defined.

Lemma push_to_crm_top_level_status_witness :
  exists result st',
    push_to_crm no_containers person
      (World (fun _ _ => ok_json (JList [])) within_noon) initial
    = (Returned result, st')
    /\ answer_of (query_reply person
                    (World (fun _ _ => ok_json (JList [])) within_noon)
                    initial) <> None.
Proof.
  destruct (push_to_crm_top_level_status no_containers person
              (World (fun _ _ => ok_json (JList [])) within_noon) initial)
    as (result & st' & Hrun & _ & Herr).
  exists result, st'. split; [exact Hrun|].
  apply Herr. vm_compute in Hrun. injection Hrun as <- _. reflexivity.
Defined.

(** * The CRM workflow, reply by reply *)

Lemma api_then_json_unanswered {B} (c : EspoAPI) (m : http_method)
    (action : string) (params : json) (k : json -> M B) (w : world)
    (st : state) :
  let rq := api_request_of c m action params in
  let rp := http w (exchanges st) rq in
  answer_of rp = None ->
  exists st',
    (response <- api_request c m action params ;;
     data <- response_json response ;; k data) w st
    = (Raised (failure_exn rp), st')
    /\ exchanges st' = (exchanges st ++ [(rq, rp)])%list
    /\ clock_reads st' = clock_reads st.
Proof.
  intros rq rp. unfold api_request, bind, emit, send; simpl.
  fold rq. fold rp. destruct rp as [err|r]; simpl.
  - eauto.
  - destruct (status_code r =? 200)%Z; simpl.
    + unfold response_json.
      destruct (content r) eqn:E; simpl; rewrite ?E; unfold raise;
        intros H; try discriminate; eauto.
    + eauto.
Qed.

Lemma create_lead_exact (sc : json -> string) (c : EspoAPI)
    (payload : Dict.t json) (w : world) (st : state) :
  let rq := lead_request sc c payload (now w (clock_reads st)) in
  let rp := http w (exchanges st) rq in
  exists st',
    create_lead sc c payload w st = (Returned (step_result "lead" rp), st')
    /\ exchanges st' = (exchanges st ++ [(rq, rp)])%list
    /\ clock_reads st' = S (clock_reads st).
Proof.
  intros rq rp. unfold create_lead. unfold bind at 1. unfold datetime_now.
  unfold try_except, step_result.
  destruct (answer_of rp) as [data|] eqn:Ha.
  - match goal with
    | |- context [bind (api_request c POST "Lead" ?p) _] =>
        pose proof (api_then_json c POST "Lead" p
                      (fun data => emit INFO (MsgLeadCreated data) ;;
                                   ret (success_result "lead" data)) w
                      (State (exchanges st) (log st) (S (clock_reads st))))
          as H
    end.
    cbv zeta in H. simpl exchanges in H.
    fold (lead_request sc c payload (now w (clock_reads st))) in H.
    fold rq in H. fold rp in H. rewrite Ha in H.
    unfold success_result in H. rewrite H. unfold bind, emit, ret; simpl.
    eauto.
  - match goal with
    | |- context [bind (api_request c POST "Lead" ?p) _] =>
        destruct (api_then_json_unanswered c POST "Lead" p
                    (fun data => emit INFO (MsgLeadCreated data) ;;
                                 ret (success_result "lead" data)) w
                    (State (exchanges st) (log st) (S (clock_reads st))) Ha)
          as (st' & H & Hx & Hc)
    end.
    unfold success_result in H.
    fold (lead_request sc c payload (now w (clock_reads st))) in H.
    fold rq in H. fold rp in H.
    rewrite H. simpl. unfold bind, emit, ret; simpl. eauto.
Qed.

Lemma create_contact_exact (sc : json -> string) (c : EspoAPI)
    (first_name last_name phone_number : json) (w : world) (st : state) :
  let rq := contact_request sc c first_name last_name phone_number in
  let rp := http w (exchanges st) rq in
  exists st',
    create_contact sc c first_name last_name phone_number w st
    = (Returned (step_result "contact" rp), st')
    /\ exchanges st' = (exchanges st ++ [(rq, rp)])%list
    /\ clock_reads st' = clock_reads st.
Proof.
  intros rq rp. unfold create_contact, try_except, step_result.
  destruct (answer_of rp) as [data|] eqn:Ha.
  - pose proof (api_then_json c POST "Contact"
                  (JDict (contact_payload sc first_name last_name phone_number))
                  (fun data => emit INFO (MsgContactCreated data) ;;
                               ret (success_result "contact" data)) w st) as H.
    cbv zeta in H.
    fold (contact_request sc c first_name last_name phone_number) in H.
    fold rq in H. fold rp in H. rewrite Ha in H.
    unfold success_result in H. rewrite H. unfold bind, emit, ret; simpl.
    eauto.
  - destruct (api_then_json_unanswered c POST "Contact"
                (JDict (contact_payload sc first_name last_name phone_number))
                (fun data => emit INFO (MsgContactCreated data) ;;
                             ret (success_result "contact" data)) w st Ha)
      as (st' & H & Hx & Hc).
    unfold success_result in H.
    fold (contact_request sc c first_name last_name phone_number) in H.
    fold rq in H. fold rp in H.
    rewrite H. simpl. unfold bind, emit, ret; simpl. eauto.
Qed.

Lemma get_contact_unanswered_exact (sc : json -> string) (c : EspoAPI)
    (first_name last_name phone_number : json) (w : world) (st : state) :
  let rp := http w (exchanges st) (query_request c phone_number) in
  answer_of rp = None ->
  exists st',
    get_contact sc c first_name last_name phone_number w st
    = (Returned (failed rp), st')
    /\ exchanges st'
       = (exchanges st ++ [(query_request c phone_number, rp)])%list.
Proof.
  intros rp Hq. unfold get_contact. rewrite bind_run. unfold try_except.
  destruct (api_then_json_unanswered c GET "Contact"
              (JDict (contact_query phone_number))
              (fun data => ret (inl data : json + json)) w st Hq)
    as (st1 & H & Hx & _).
  fold (query_request c phone_number) in H, Hx. fold rp in H, Hx.
  rewrite H. eexists. split; [reflexivity|]. exact Hx.
Qed.

Lemma step_result_status (key : string) (rp : reply) :
  eq_str (status_of (step_result key rp)) "success"
  = match answer_of rp with Some _ => true | None => false end.
Proof. unfold step_result. now destruct (answer_of rp). Qed.

Lemma step_result_some (key : string) (rp : reply) (data : json) :
  answer_of rp = Some data -> step_result key rp = success_result key data.
Proof. unfold step_result. now intros ->. Qed.

Lemma step_result_none (key : string) (rp : reply) :
  answer_of rp = None -> step_result key rp = failed rp.
Proof. unfold step_result. now intros ->. Qed.

(** The zero-match path, whatever the replies. *)
Lemma upsert_zero_exact (sc : json -> string) (c : EspoAPI)
    (d : Dict.t json) (first_name last_name phone : json)
    (w : world) (st : state) :
  let rq := contact_request sc c first_name last_name phone in
  let rp := http w (exchanges st) rq in
  let rq' := lead_request sc c (lead_payload first_name last_name phone)
               (now w (clock_reads st)) in
  let rp' := http w (exchanges st ++ [(rq, rp)]) rq' in
  eq_zero (Dict.get_default "total" (JNum 0) d) = true ->
  exists st',
    upsert sc c (JDict d) first_name last_name phone w st
    = (Returned
         match answer_of rp with
         | Some data =>
             JDict [("status", JStr "created");
                    ("contact", success_result "contact" data);
                    ("lead", step_result "lead" rp')]
         | None => failed rp
         end, st')
    /\ exchanges st'
       = (exchanges st
          ++ match answer_of rp with
             | Some _ => [(rq, rp); (rq', rp')]
             | None => [(rq, rp)]
             end)%list.
Proof.
  intros rq rp rq' rp' Hz.
  unfold upsert. rewrite bind_run. cbn [method_get ret].
  rewrite bind_run, emit_run, Hz. rewrite bind_run.
  match goal with
  | |- context [create_contact sc c first_name last_name phone w ?s] =>
      destruct (create_contact_exact sc c first_name last_name phone w s)
        as (st1 & -> & Hx & Hc)
  end.
  simpl exchanges in Hx |- *. simpl clock_reads in Hc.
  fold rq in Hx |- *. fold rp in Hx |- *.
  rewrite bind_run.
  destruct (answer_of rp) as [data|] eqn:Ha.
  - rewrite !(step_result_some "contact" rp data Ha).
    cbn [item success_result Dict.get String.eqb Ascii.eqb Bool.eqb ret
           eq_str JStr negb].
    rewrite bind_run.
    destruct (create_lead_exact sc c (lead_payload first_name last_name phone)
                w st1) as (st2 & -> & Hx2 & _).
    rewrite Hc, Hx in Hx2. fold rq' in Hx2. fold rp' in Hx2.
    rewrite Hc, Hx. fold rq'. fold rp'.
    eexists. split; [reflexivity|]. now rewrite Hx2, <- app_assoc.
  - rewrite !(step_result_none "contact" rp Ha).
    cbn [failed error_result item Dict.get String.eqb Ascii.eqb Bool.eqb ret
           eq_str JStr negb].
    eexists. split; [reflexivity|]. exact Hx.
Qed.

Lemma first_item_run (found_list : json) (w : world) (st : state) :
  first_item found_list w st = (fst (first_item found_list w initial), st).
Proof.
  destruct found_list as [[| | |[|a s]]|[|x l]|d']; reflexivity.
Qed.

(** The path of an existing contact, whatever the reply to the lead
    creation. *)
Lemma upsert_match_exact (sc : json -> string) (c : EspoAPI)
    (d : Dict.t json) (first_name last_name phone found_list contact : json)
    (w : world) (st : state) :
  let rq' := lead_request sc c (lead_payload first_name last_name phone)
               (now w (clock_reads st)) in
  let rp' := http w (exchanges st) rq' in
  eq_zero (Dict.get_default "total" (JNum 0) d) = false ->
  Dict.get "list" d = Some found_list ->
  fst (first_item found_list w initial) = Returned contact ->
  exists st',
    upsert sc c (JDict d) first_name last_name phone w st
    = (Returned (JDict [("status", JStr "success");
                        ("contact", contact);
                        ("lead", step_result "lead" rp')]), st')
    /\ exchanges st' = (exchanges st ++ [(rq', rp')])%list.
Proof.
  intros rq' rp' Hnz Hlist Hfirst.
  unfold upsert. rewrite bind_run. cbn [method_get ret].
  rewrite bind_run, emit_run, Hnz. rewrite bind_run. cbn [item].
  rewrite Hlist. cbn [ret]. rewrite bind_run, first_item_run, Hfirst.
  rewrite bind_run.
  match goal with
  | |- context [create_lead sc c ?p w ?s] =>
      destruct (create_lead_exact sc c p w s) as (st2 & -> & Hx2 & _)
  end.
  simpl exchanges in Hx2 |- *. simpl clock_reads in Hx2 |- *.
  fold rq' in Hx2 |- *. fold rp' in Hx2 |- *.
  eexists. split; [reflexivity|]. exact Hx2.
Qed.

Lemma issued_after (st st' : state) (xs : list exchange)
    (entries : list log_entry) :
  exchanges st' = (exchanges st ++ xs)%list ->
  issued st (add_log st' entries) = xs.
Proof. intros H. now apply issued_app. Qed.

(** C1, as the code has it.  [push_to_crm] never raises and always
    returns a mapping with a ["status"] entry.  A CRM sub-step that fails
    at the HTTP level (no reply, a status other than 200, an empty body)
    ends the requests of the invocation and is reported as data below a
    top-level status ["pushed"]: when the contact query or the contact
    creation fails, [crm_result] is the error result
    [{status: "error", message}] of that failure; when the lead creation
    fails, [crm_result] keeps its status and its contact and holds the
    error result under ["lead"]. *)
Theorem push_to_crm_failure_as_data (sc : json -> string)
    (params : Dict.t json) (w : world) (st : state) :
  let query :=
    (query_request default_client (phone_of params),
     query_reply params w st) in
  let creation :=
    (contact_request sc default_client (first_name_of params)
       (last_name_of params) (phone_of params),
     contact_reply sc params w st) in
  (exists d status st',
     push_to_crm sc params w st = (Returned (JDict d), st')
     /\ Dict.get "status" d = Some (JStr status))
  /\ (http_failure (query_reply params w st) ->
      exists st',
        push_to_crm sc params w st
        = (Returned (pushed (failed (query_reply params w st))), st')
        /\ issued st st' = [query])
  /\ (forall d,
        answer_of (query_reply params w st) = Some (JDict d) ->
        eq_zero (Dict.get_default "total" (JNum 0) d) = true ->
        (http_failure (contact_reply sc params w st) ->
         exists st',
           push_to_crm sc params w st
           = (Returned (pushed (failed (contact_reply sc params w st))), st')
           /\ issued st st' = [query; creation])
        /\ (forall data,
              answer_of (contact_reply sc params w st) = Some data ->
              http_failure (lead_reply_created sc params w st) ->
              exists st',
                push_to_crm sc params w st
                = (Returned
                     (pushed
                        (JDict [("status", JStr "created");
                                ("contact", success_result "contact" data);
                                ("lead",
                                 failed (lead_reply_created sc params w st))])),
                   st')
                /\ issued st st'
                   = [query; creation;
                      (lead_request_of sc params w st,
                       lead_reply_created sc params w st)]))
  /\ (forall d contact rest,
        answer_of (query_reply params w st) = Some (JDict d) ->
        eq_zero (Dict.get_default "total" (JNum 0) d) = false ->
        Dict.get "list" d = Some (JList (contact :: rest)) ->
        http_failure (lead_reply_existing sc params w st) ->
        exists st',
          push_to_crm sc params w st
          = (Returned
               (pushed
                  (JDict [("status", JStr "success");
                          ("contact", contact);
                          ("lead",
                           failed (lead_reply_existing sc params w st))])),
             st')
          /\ issued st st'
             = [query;
                (lead_request_of sc params w st,
                 lead_reply_existing sc params w st)]).
Proof.
  intros query creation. rewrite push_to_crm_run.
  set (st0 := pushing params st).
  set (st1 := queried default_client (phone_of params) w st0).
  split; [|split; [|split]].
  - destruct (get_contact sc default_client (first_name_of params)
                (last_name_of params) (phone_of params) w st0)
      as [[result|e] st2]; do 3 eexists; split; reflexivity.
  - intros Hfail. apply http_failure_no_answer in Hfail.
    destruct (get_contact_unanswered_exact sc default_client
                (first_name_of params) (last_name_of params)
                (phone_of params) w st0 Hfail) as (st2 & -> & Hx).
    eexists. split; [reflexivity|]. now apply issued_after.
  - intros d Hq Hz.
    rewrite (get_contact_answered sc default_client _ _ _ (JDict d) w st0 Hq).
    fold st1.
    destruct (upsert_zero_exact sc default_client d (first_name_of params)
                (last_name_of params) (phone_of params) w st1 Hz)
      as (st2 & Hup & Hx).
    simpl exchanges in Hup, Hx. simpl clock_reads in Hup, Hx.
    fold (query_reply params w st) in Hup, Hx.
    fold (contact_reply sc params w st) in Hup, Hx.
    fold (lead_request_of sc params w st) in Hup, Hx.
    rewrite Hup. split.
    + intros Hfail. apply http_failure_no_answer in Hfail.
      rewrite Hfail in Hx |- *.
      eexists. split; [reflexivity|]. apply issued_after.
      now rewrite Hx, <- app_assoc.
    + intros data Hc Hfail. apply http_failure_no_answer in Hfail.
      rewrite Hc in Hx |- *.
      assert (E : http w
                    ((exchanges st ++ [query]) ++ [creation])
                    (lead_request_of sc params w st)
                  = lead_reply_created sc params w st)
        by (unfold lead_reply_created; now rewrite <- app_assoc).
      unfold query, creation in E. rewrite E in Hx |- *.
      rewrite (step_result_none "lead" _ Hfail).
      eexists. split; [reflexivity|]. apply issued_after.
      now rewrite Hx, <- app_assoc.
  - intros d contact rest Hq Hnz Hlist Hfail.
    apply http_failure_no_answer in Hfail.
    rewrite (get_contact_answered sc default_client _ _ _ (JDict d) w st0 Hq).
    fold st1.
    destruct (upsert_match_exact sc default_client d (first_name_of params)
                (last_name_of params) (phone_of params)
                (JList (contact :: rest)) contact w st1 Hnz Hlist eq_refl)
      as (st2 & -> & Hx).
    simpl exchanges in Hx |- *. simpl clock_reads in Hx |- *.
    fold (query_reply params w st) in Hx |- *.
    fold (lead_request_of sc params w st) in Hx |- *.
    fold (lead_reply_existing sc params w st) in Hx |- *.
    rewrite (step_result_none "lead" _ Hfail).
    eexists. split; [reflexivity|]. apply issued_after.
    now rewrite Hx, <- app_assoc.
Qed.

Lemma push_to_crm_failure_as_data_witness :
  (exists st',
     push_to_crm no_containers person crm_down initial
     = (Returned (pushed (failed server_error)), st')
     /\ issued initial st'
        = [(query_request default_client (phone_of person), server_error)])
  /\ (exists st',
        push_to_crm no_containers person (crm_without_leads []) initial
        = (Returned
             (pushed
                (JDict [("status", JStr "created");
                        ("contact", success_result "contact" stored_contact);
                        ("lead", failed server_error)])), st')).
Proof.
  split.
  - refine (proj1 (proj2 (push_to_crm_failure_as_data no_containers person
                            crm_down initial)) _).
    left. discriminate.
  - pose proof (proj1 (proj2 (proj2
                  (push_to_crm_failure_as_data no_containers person
                     (crm_without_leads []) initial)))) as H.
    specialize (H [("total", JNum 0); ("list", JList [])] eq_refl eq_refl).
    destruct (proj2 H stored_contact eq_refl ltac:(left; discriminate))
      as (st' & Hrun & _).
    exists st'. exact Hrun.
Defined.

(** C4, as the code has it.  When the contact query succeeds and
    reports one or more contacts, [push_to_crm] sends exactly two
    requests, the query and one lead creation: no contact is created and
    nothing is sent that would change the contact.  The workflow result,
    which [push_to_crm] returns as [crm_result] below its own status
    ["pushed"], has the status ["success"] and carries the first contact
    of the list unchanged together with the outcome of the lead
    creation. *)
Theorem push_to_crm_existing_contact (sc : json -> string)
    (params : Dict.t json) (w : world) (st : state) (d : Dict.t json)
    (total : Z) (contact : json) (rest : list json) :
  answer_of (query_reply params w st) = Some (JDict d) ->
  Dict.get "total" d = Some (JNum total) ->
  (0 < total)%Z ->
  Dict.get "list" d = Some (JList (contact :: rest)) ->
  exists st',
    push_to_crm sc params w st
    = (Returned
         (pushed
            (JDict [("status", JStr "success");
                    ("contact", contact);
                    ("lead",
                     step_result "lead"
                       (lead_reply_existing sc params w st))])), st')
    /\ issued st st'
       = [(query_request default_client (phone_of params),
           query_reply params w st);
          (lead_request_of sc params w st,
           lead_reply_existing sc params w st)]
    /\ contact_creates (issued st st') = 0
    /\ lead_creates (issued st st') = 1.
Proof.
  intros Hq Ht Hpos Hlist. pose proof (total_positive d total Ht Hpos) as Hnz.
  rewrite push_to_crm_run.
  rewrite (get_contact_answered sc default_client _ _ _ (JDict d) w
             (pushing params st) Hq).
  destruct (upsert_match_exact sc default_client d (first_name_of params)
              (last_name_of params) (phone_of params)
              (JList (contact :: rest)) contact w
              (queried default_client (phone_of params) w (pushing params st))
              Hnz Hlist eq_refl)
    as (st2 & -> & Hx).
  simpl exchanges in Hx |- *. simpl clock_reads in Hx |- *.
  fold (query_reply params w st) in Hx |- *.
  fold (lead_request_of sc params w st) in Hx |- *.
  fold (lead_reply_existing sc params w st) in Hx |- *.
  eexists. split; [reflexivity|].
  assert (Hi : issued st (add_log st2 [(INFO, MsgPushResult
                 (JDict [("status", JStr "success"); ("contact", contact);
                         ("lead", step_result "lead"
                                    (lead_reply_existing sc params w st))]))])
               = [(query_request default_client (phone_of params),
                   query_reply params w st);
                  (lead_request_of sc params w st,
                   lead_reply_existing sc params w st)])
    by (apply issued_after; now rewrite Hx, <- app_assoc).
  rewrite Hi. split; [reflexivity|]. apply counts_query_lead.
Qed.

Lemma push_to_crm_existing_contact_witness :
  exists st',
    push_to_crm no_containers person
      (crm_with [stored_contact] within_noon) initial
    = (Returned (pushed (JDict [("status", JStr "success");
                                ("contact", stored_contact);
                                ("lead", success_result "lead" stored_lead)])),
       st')
    /\ List.length (issued initial st') = 2.
Proof.
  destruct (push_to_crm_existing_contact no_containers person
              (crm_with [stored_contact] within_noon) initial
              [("total", JNum 1); ("list", JList [stored_contact])]
              1 stored_contact [] eq_refl eq_refl eq_refl eq_refl)
    as (st' & Hrun & Hi & _).
  exists st'. split; [exact Hrun|]. now rewrite Hi.
Defined.

(** The claim C4 as it is written fails on the status: the query reports
    one contact, and the mapping that [push_to_crm] returns has the status
    ["pushed"]; the status ["success"] is the one of its [crm_result]. *)
Lemma push_to_crm_existing_contact_is_pushed :
  answer_of (query_reply person (crm_with [stored_contact] within_noon)
               initial)
  = Some (JDict [("total", JNum 1); ("list", JList [stored_contact])])
  /\ status_of
       (returned
          (fst (push_to_crm no_containers person
                  (crm_with [stored_contact] within_noon) initial)))
     = JStr "pushed"
  /\ JStr "pushed" <> JStr "success".
Proof. split; [reflexivity|]. split; [reflexivity|discriminate]. Qed.

(** * The gate when the status query fails *)

Lemma status_try_fails (w : world) (st : state) :
  let rp := http w (exchanges st) status_request in
  status_query_fails rp ->
  status_try w st
  = (Raised (status_failure rp), add_exchange st (status_request, rp)).
Proof.
  intros rp. unfold status_try, bind, send, response_json, raise.
  fold rp. destruct rp as [err|r]; simpl; [reflexivity|].
  destruct (content r); simpl; intros H; [reflexivity|reflexivity|].
  contradiction.
Qed.

Lemma make_call_string_log (s : string) (w : world) (st : state) :
  exists res st' printed,
    make_call (SStr s) w st = (Returned res, st')
    /\ exchanges st'
       = (exchanges st
          ++ [(call_request (last_chars 9 s),
               http w (exchanges st) (call_request (last_chars 9 s)))])%list
    /\ log st' = (log st ++ printed)%list
    /\ Forall (fun l => fst l = STDOUT) printed.
Proof.
  unfold make_call, slice_last9, bind, try_except, send, ret.
  destruct (http w (exchanges st) (call_request (last_chars 9 s)))
    as [err|r]; simpl.
  - do 3 eexists. repeat split. repeat constructor.
  - unfold raise_for_status.
    destruct ((400 <=? status_code r)%Z && (status_code r <? 500)%Z);
      simpl; [do 3 eexists; repeat split; repeat constructor|].
    destruct ((500 <=? status_code r)%Z && (status_code r <? 600)%Z);
      simpl; [do 3 eexists; repeat split; repeat constructor|].
    unfold response_json. destruct (content r); simpl.
    + do 3 eexists. repeat split. repeat constructor.
    + do 3 eexists. repeat split. repeat constructor.
    + exists j. eexists. exists []. repeat split; simpl.
      * now rewrite app_nil_r.
      * constructor.
Qed.

Lemma error_lines_items (items : Dict.t scalar) :
  filter (fun l : log_entry => match fst l with ERROR => true | _ => false end)
    (items_log items) = [].
Proof. induction items as [|[k v] items IH]; simpl; auto. Qed.

Lemma error_lines_printed (printed : list log_entry) :
  Forall (fun l => fst l = STDOUT) printed ->
  filter (fun l : log_entry => match fst l with ERROR => true | _ => false end)
    printed = [].
Proof.
  induction 1 as [|l printed Hl _ IH]; simpl; [reflexivity|].
  now rewrite Hl.
Qed.

(** C7, as the code has it.  With the three fields resolved and a
    number that is a string, a status query that fails (there is no
    reply, or the body of the reply is not a JSON document, whatever its
    status code) is logged as an error and read as the status ["idle"]:
    [start_call] returns normally after exactly two requests, the status
    query and one call request for the last nine characters of the
    number. *)
Theorem status_failure_fails_open (params : Dict.t json) (w : world)
    (st : state) (number : string) :
  truthy (resolve lead_id_keys (parsed_data_of params)) = true ->
  resolve number_id_keys (parsed_data_of params) = SStr number ->
  number <> "" ->
  truthy (resolve created_by_id_keys (parsed_data_of params)) = true ->
  status_query_fails (status_reply params w st) ->
  exists st',
    start_call params w st = (Returned tt, st')
    /\ issued st st'
       = [(status_request, status_reply params w st);
          (call_request (last_chars 9 number),
           http w
             (exchanges st ++ [(status_request, status_reply params w st)])
             (call_request (last_chars 9 number)))]
    /\ error_lines st'
       = (error_lines st
          ++ [(ERROR,
               MsgStatusError (status_failure (status_reply params w st)))])%list
    /\ In (INFO, MsgCurrentStatus (JStr "idle")) (log st').
Proof.
  intros Hl Hn Hne Hc Hfail.
  rewrite start_call_enough
    by (apply truthy_all; auto; rewrite Hn; simpl;
        now destruct (String.eqb_spec number "")).
  rewrite Hn. unfold gate, observe_status, query_status, try_except.
  rewrite !bind_run.
  rewrite (status_try_fails w (fields_logged params st) Hfail).
  cbn [any_exception]. rewrite bind_run, emit_run. cbn [ret method_get].
  rewrite bind_run. cbn [ret]. rewrite bind_run, emit_run. cbn [ret].
  cbn [Dict.get_default Dict.get String.eqb Ascii.eqb Bool.eqb JStr is_idle].
  rewrite bind_run.
  match goal with
  | |- context [make_call (SStr number) w ?s] =>
      destruct (make_call_string_log number w s)
        as (res & st3 & printed & -> & Hx & Hlog & Hprinted)
  end.
  simpl exchanges in Hx. simpl log in Hlog.
  fold (status_reply params w st) in Hx, Hlog.
  exists st3. split; [reflexivity|]. split; [|split].
  - apply issued_app. now rewrite Hx, <- app_assoc.
  - unfold error_lines. rewrite Hlog.
    rewrite <- !app_assoc, !filter_app.
    rewrite error_lines_items, (error_lines_printed printed Hprinted).
    reflexivity.
  - rewrite Hlog. apply in_or_app. left.
    apply in_or_app. right. now left.
Qed.

Lemma status_failure_fails_open_witness :
  exists st',
    start_call event_string_phone telephony_down initial = (Returned tt, st')
    /\ issued initial st'
       = [(status_request, NoReply "Connection refused");
          (call_request "501234567", NoReply "Connection refused")].
Proof.
  destruct (status_failure_fails_open event_string_phone telephony_down
              initial "+380501234567" eq_refl eq_refl ltac:(discriminate)
              eq_refl I)
    as (st' & Hrun & Hi & _).
  exists st'. split; [exact Hrun|exact Hi].
Defined.

(** The claim C7 as it is written fails for an HTTP error that comes
    with a JSON body: the status query is answered with status 500 and the
    body [{"status": "error"}], the three fields are resolved and the
    number is a string, yet nothing is logged as an error and no call
    request is sent. *)
Lemma status_http_error_closes_gate :
  status_reply event_string_phone telephony_error_body initial
  = Reply (Response 500 "Internal Server Error" None
             (BodyJson (JDict [("status", JStr "error")])))
  /\ resolve number_id_keys (parsed_data_of event_string_phone)
     = SStr "+380501234567"
  /\ truthy (resolve lead_id_keys (parsed_data_of event_string_phone)) = true
  /\ truthy (resolve created_by_id_keys (parsed_data_of event_string_phone))
     = true
  /\ issued initial
       (snd (start_call event_string_phone telephony_error_body initial))
     = [(status_request,
         status_reply event_string_phone telephony_error_body initial)]
  /\ error_lines
       (snd (start_call event_string_phone telephony_error_body initial))
     = [].
Proof. vm_compute. repeat split. Qed.

(** X22. Whatever its parameters and the replies, [push_to_crm] starts
    with the contact query and then sends nothing more, or the contact
    creation alone when it is not answered, or the contact creation, once
    answered, followed by the lead creation, or the lead creation alone:
    never more than three requests, never two creations of the same kind,
    and never a lead creation after a contact creation that failed. *)
Theorem push_to_crm_footprint (sc : json -> string) (params : Dict.t json)
    (w : world) (st : state) :
  let creation :=
    (contact_request sc default_client (first_name_of params)
       (last_name_of params) (phone_of params),
     contact_reply sc params w st) in
  exists rest,
    issued st (snd (push_to_crm sc params w st))
    = (query_request default_client (phone_of params),
       query_reply params w st) :: rest
    /\ (rest = []
        \/ (rest = [creation]
            /\ answer_of (contact_reply sc params w st) = None)
        \/ (rest = [creation;
                    (lead_request_of sc params w st,
                     lead_reply_created sc params w st)]
            /\ answer_of (contact_reply sc params w st) <> None)
        \/ rest = [(lead_request_of sc params w st,
                    lead_reply_existing sc params w st)]).
Proof.
  intros creation. rewrite push_to_crm_run.
  set (st0 := pushing params st).
  set (st1 := queried default_client (phone_of params) w st0).
  assert (Hraise : forall data e st2,
             upsert sc default_client data (first_name_of params)
               (last_name_of params) (phone_of params) w st1
             = (Raised e, st2) ->
             issued st (add_log st2 [(ERROR, MsgPushError e)])
             = [(query_request default_client (phone_of params),
                 query_reply params w st)]).
  { intros data e st2 Hup. apply upsert_raises in Hup.
    now apply issued_after. }
  destruct (answer_of (query_reply params w st)) as [data|] eqn:Hq.
  - rewrite (get_contact_answered sc default_client _ _ _ data w st0 Hq).
    fold st1.
    destruct data as [v|l|d].
    + destruct (upsert _ _ _ _ _ _ w st1) as [[result|e] st2] eqn:Hup;
        [unfold upsert in Hup; rewrite bind_run in Hup; discriminate|].
      exists []. split; [now apply (Hraise _ _ _ Hup)|now left].
    + destruct (upsert _ _ _ _ _ _ w st1) as [[result|e] st2] eqn:Hup;
        [unfold upsert in Hup; rewrite bind_run in Hup; discriminate|].
      exists []. split; [now apply (Hraise _ _ _ Hup)|now left].
    + destruct (eq_zero (Dict.get_default "total" (JNum 0) d)) eqn:Hz.
      * destruct (upsert_zero_exact sc default_client d
                    (first_name_of params) (last_name_of params)
                    (phone_of params) w st1 Hz) as (st2 & -> & Hx).
        simpl exchanges in Hx. simpl clock_reads in Hx.
        fold (query_reply params w st) in Hx.
        fold (contact_reply sc params w st) in Hx.
        fold (lead_request_of sc params w st) in Hx.
        destruct (answer_of (contact_reply sc params w st)) as [c|] eqn:Hc.
        -- eexists. split.
           ++ apply issued_after. rewrite Hx, <- app_assoc. reflexivity.
           ++ right; right; left. split; [|discriminate].
              unfold creation, lead_reply_created.
              now rewrite <- app_assoc.
        -- eexists. split.
           ++ apply issued_after. rewrite Hx, <- app_assoc. reflexivity.
           ++ right; left. now split.
      * destruct (Dict.get "list" d) as [found_list|] eqn:Hlist.
        -- destruct (fst (first_item found_list w initial))
             as [contact|e1] eqn:Hfirst.
           ++ destruct (upsert_match_exact sc default_client d
                          (first_name_of params) (last_name_of params)
                          (phone_of params) found_list contact w st1
                          Hz Hlist Hfirst) as (st2 & -> & Hx).
              simpl exchanges in Hx. simpl clock_reads in Hx.
              fold (query_reply params w st) in Hx.
              fold (lead_request_of sc params w st) in Hx.
              fold (lead_reply_existing sc params w st) in Hx.
              eexists. split.
              ** apply issued_after. rewrite Hx, <- app_assoc. reflexivity.
              ** now right; right; right.
           ++ destruct (upsert _ _ _ _ _ _ w st1) as [[result|e] st2] eqn:Hup.
              ** exfalso. unfold upsert in Hup. rewrite bind_run in Hup.
                 cbn [method_get ret] in Hup.
                 rewrite bind_run, emit_run, Hz, bind_run in Hup.
                 cbn [item] in Hup. rewrite Hlist in Hup. cbn [ret] in Hup.
                 rewrite bind_run, first_item_run, Hfirst in Hup.
                 discriminate.
              ** exists []. split; [now apply (Hraise _ _ _ Hup)|now left].
        -- destruct (upsert _ _ _ _ _ _ w st1) as [[result|e] st2] eqn:Hup.
           ++ exfalso. unfold upsert in Hup. rewrite bind_run in Hup.
              cbn [method_get ret] in Hup.
              rewrite bind_run, emit_run, Hz, bind_run in Hup.
              cbn [item] in Hup. rewrite Hlist in Hup. discriminate.
           ++ exists []. split; [now apply (Hraise _ _ _ Hup)|now left].
  - destruct (get_contact_unanswered sc default_client (first_name_of params)
                (last_name_of params) (phone_of params) w st0 Hq)
      as (e & st2 & -> & Hx).
    exists []. split; [now apply issued_after|now left].
Qed.

Lemma push_to_crm_footprint_witness :
  issued initial
    (snd (push_to_crm no_containers person (crm_with [] within_noon) initial))
  = [(query_request default_client (phone_of person), contact_list []);
     (contact_request no_containers default_client (first_name_of person)
        (last_name_of person) (phone_of person),
      ok_json stored_contact);
     (lead_request_of no_containers person (crm_with [] within_noon) initial,
      ok_json stored_lead)].
Proof.
  destruct (push_to_crm_footprint no_containers person
              (crm_with [] within_noon) initial)
    as (rest & Hrest & [->|[[-> Hno]|[[-> _]| ->]]]).
  - apply (f_equal (@List.length _)) in Hrest. discriminate Hrest.
  - discriminate Hno.
  - exact Hrest.
  - apply (f_equal (@List.length _)) in Hrest. discriminate Hrest.
Defined.
